(** * SAM segmentation service (backend/app.py): model and properties

    A shallow embedding of the FastAPI handlers of [backend/app.py] and of
    the mask vectoriser [_mask_to_polygons].

    The module-level globals ([_sessions], [current_index]) and the upload
    directory are the fields of a [World] record that every handler threads
    through a small state-and-exception monad.  The libraries the handlers
    call (OpenCV, PIL, segment_anything, uuid, os.path) are not part of the
    repository; they enter the development as type-class interfaces, with
    the few facts of their documentation that the proofs rely on. *)

From Stdlib Require Import ZArith QArith Qabs Qround List Sorted Lia Bool.
From stdpp Require Import gmap strings list.

Local Open Scope Z_scope.

(** ** Arrays and contours *)

(** A contour (and a polygon) is a sequence of pixel positions.  OpenCV
    hands them over as int32 arrays of shape (N,1,2); after
    [reshape(-1, 2).astype(float).tolist()] the same integers are emitted
    as floats. *)
Definition Point : Type := Z * Z.
Definition Contour : Type := list Point.

(** A boolean mask of shape (H, W), row by row, and a uint8 image. *)
Definition Mask : Type := list (list bool).
Definition Image : Type := list (list Z).

(** [mask.astype(np.uint8) * 255], the product taken in uint8. *)
Definition astype_uint8 (b : bool) : Z := if b then 1 else 0.
Definition mul_uint8 (v k : Z) : Z := (v * k) mod 256.
Definition mask_to_u8 (mask : Mask) : Image :=
  map (map (fun b => mul_uint8 (astype_uint8 b) 255)) mask.

(** [np.ones((3, 3), np.uint8)] *)
Definition np_ones_u8 (h w : nat) : Image := repeat (repeat 1 w) h.

(** A two-dimensional array of shape (h, w). *)
Definition has_shape {A : Type} (h w : nat) (a : list (list A)) : Prop :=
  length a = h /\ Forall (fun row => length row = w) a.

(** An image without a single foreground pixel. *)
Definition blank (img : Image) : Prop := Forall (Forall (fun v => v = 0)) img.
Definition all_false (mask : Mask) : Prop := Forall (Forall (fun b => b = false)) mask.

(** ** cv2.contourArea

    OpenCV computes the area with Green's formula: starting from the last
    vertex it accumulates [prev.x * p.y - prev.y * p.x] over the vertices,
    halves the sum and drops the sign.  On integer vertices this is exact
    in double precision, so the value is the rational below. *)
Fixpoint green_sum (prev : Point) (pts : list Point) : Z :=
  match pts with
  | [] => 0
  | p :: rest => (fst prev * snd p - snd prev * fst p) + green_sum p rest
  end.

Definition contourArea (cnt : Contour) : Q :=
  match cnt with
  | [] => 0%Q
  | p0 :: _ => Qmake (Z.abs (green_sum (List.last cnt p0) cnt)) 2
  end.

(** ** The OpenCV interface *)

Inductive MorphOp := MORPH_ERODE | MORPH_DILATE | MORPH_OPEN | MORPH_CLOSE.
Inductive RetrievalMode := RETR_EXTERNAL | RETR_LIST | RETR_CCOMP | RETR_TREE.
Inductive ApproxMethod := CHAIN_APPROX_NONE | CHAIN_APPROX_SIMPLE.

(** The three OpenCV operations whose result depends on the whole raster.
    They stand for OpenCV on arrays of shape (H, W) with H, W > 0, the
    masks a predictor returns; on an array without pixels
    [cv2.morphologyEx] raises, and nothing is said about that case.  The
    two laws are the documented behaviour on such an image without
    foreground: opening with the full 3 x 3 element keeps the shape and
    cannot switch a pixel on, and there is no border to follow. *)
Class Cv2 := {
  morphologyEx : Image -> MorphOp -> Image -> Image;
  findContours : Image -> RetrievalMode -> ApproxMethod -> list Contour;
  approxPolyDP : Contour -> Q -> bool -> Contour;
  morphologyEx_open_blank : forall img h w,
    (0 < h)%nat -> (0 < w)%nat -> has_shape h w img -> blank img ->
    has_shape h w (morphologyEx img MORPH_OPEN (np_ones_u8 3 3)) /\
    blank (morphologyEx img MORPH_OPEN (np_ones_u8 3 3));
  findContours_blank : forall img h w mode method,
    (0 < h)%nat -> (0 < w)%nat -> has_shape h w img -> blank img ->
    findContours img mode method = []
}.

(** ** list.sort(key=..., reverse=True)

    Python's sort is stable, also with [reverse=True]: elements with equal
    keys keep their relative order.  A stable sort is determined by the
    key order, so insertion from the right computes the same list. *)
Section Sort.
Context {A : Type} (key : A -> Q).

Fixpoint insert_desc (x : A) (l : list A) : list A :=
  match l with
  | [] => [x]
  | y :: l' =>
      if Qle_bool (key y) (key x) then x :: y :: l'
      else y :: insert_desc x l'
  end.

Definition sort_reverse (l : list A) : list A := foldr insert_desc [] l.

(** [l[i].key >= l[i+1].key] for every valid [i]. *)
Definition descending (l : list A) : Prop :=
  forall (i : nat) (a b : A),
    l !! i = Some a -> l !! S i = Some b -> (key b <= key a)%Q.

Definition key_ge (a b : A) : Prop := (key b <= key a)%Q.
End Sort.

(** ** _mask_to_polygons *)

Definition Qlt_bool (x y : Q) : bool := negb (Qle_bool y x).

Section Vectorizer.
Context `{Cv2}.

(** The [for cnt in contours] loop, lines 84-91.  [contourArea] sees the
    contour as found; only afterwards is it simplified. *)
Fixpoint collect_polys (contours : list Contour)
    (simplify_eps : Q) (min_area_px : Z) : list Contour :=
  match contours with
  | [] => []
  | cnt :: rest =>
      if Qlt_bool (contourArea cnt) (inject_Z min_area_px)
      then collect_polys rest simplify_eps min_area_px
      else
        let cnt :=
          if Qlt_bool 0 simplify_eps
          then approxPolyDP cnt simplify_eps true
          else cnt in
        let pts := cnt in
        if (3 <=? length pts)%nat
        then pts :: collect_polys rest simplify_eps min_area_px
        else collect_polys rest simplify_eps min_area_px
  end.

(** What the loop makes of one contour that passes the area test. *)
Definition simplified (cnt : Contour) (simplify_eps : Q) : Contour :=
  if Qlt_bool 0 simplify_eps then approxPolyDP cnt simplify_eps true else cnt.

(** The sort key, line 94, is [contourArea] of the polygon converted to
    float32; pixel coordinates are far below 2^24, so the conversion is
    exact and the key is the area of the polygon as returned. *)
Definition _mask_to_polygons (mask : Mask)
    (simplify_eps : Q) (min_area_px : Z) : list Contour :=
  let mask_u8 := mask_to_u8 mask in
  let kernel := np_ones_u8 3 3 in
  let mask_u8 := morphologyEx mask_u8 MORPH_OPEN kernel in
  let contours := findContours mask_u8 RETR_EXTERNAL CHAIN_APPROX_SIMPLE in
  let polys := collect_polys contours simplify_eps min_area_px in
  sort_reverse contourArea polys.
End Vectorizer.

(** The defaults of the signature. *)
Definition default_simplify_eps : Q := 3 # 2.
Definition default_min_area_px : Z := 150.

(** ** Python values and outcomes *)

Definition bytes : Type := list Byte.byte.

(** A raised Python exception: its class and [str(e)]. *)
Record PyExn := { exn_class : string; exn_msg : string }.
Definition str (e : PyExn) : string := exn_msg e.

(** What a handler call ends in: a JSON body, a raised [HTTPException],
    or an exception no handler catches (the framework answers 500). *)
Inductive Outcome (A : Type) : Type :=
| Return (a : A)
| HTTPException (status_code : Z) (detail : string)
| Unhandled (e : PyExn).
Arguments Return {A} a.
Arguments HTTPException {A} status_code detail.
Arguments Unhandled {A} e.

(** [l[i]] on a list, with Python's negative indices. *)
Definition py_getitem {A : Type} (l : list A) (i : Z) : option A :=
  let n := Z.of_nat (length l) in
  if (0 <=? i) && (i <? n) then l !! Z.to_nat i
  else if (- n <=? i) && (i <? 0) then l !! Z.to_nat (n + i)
  else None.

(** ** PIL and numpy *)

(** A decoded picture in mode RGB. *)
Record PILImage := {
  im_width : Z;
  im_height : Z;
  im_pixels : list (Z * Z * Z)
}.

(** The uint8 array of an RGB picture. *)
Record ndarray := {
  shape : Z * Z * Z;
  buffer : list (Z * Z * Z)
}.

(** [np.array(img)]: rows first, so the shape is (height, width, 3). *)
Definition np_array_of_image (img : PILImage) : ndarray :=
  {| shape := (im_height img, im_width img, 3); buffer := im_pixels img |}.

Definition shape0 (a : ndarray) : Z := fst (fst (shape a)).
Definition shape1 (a : ndarray) : Z := snd (fst (shape a)).

(** [np.array(rows, dtype=...)] on a list of lists: rows of different
    lengths make numpy raise ValueError; otherwise every entry is cast to
    the dtype. *)
Definition np_array_2d {A : Type} (cast : A -> A) (rows : list (list A))
    : PyExn + list (list A) :=
  match rows with
  | [] => inr []
  | r :: rest =>
      if forallb (fun r' => (length r' =? length r)%nat) rest
      then inr (map (map cast) rows)
      else inl {| exn_class := "ValueError";
                  exn_msg := "setting an array element with a sequence." |}
  end.

(** [np.array(labels, dtype=np.int32)]: a Python int outside int32 makes
    numpy (2.x) raise OverflowError. *)
Definition in_int32 (z : Z) : bool := (- 2147483648 <=? z) && (z <=? 2147483647).
Definition np_array_int32 (l : list Z) : PyExn + list Z :=
  if forallb in_int32 l then inr l
  else inl {| exn_class := "OverflowError";
              exn_msg := "Python integer out of bounds for int32" |}.

(** [np.ones((n,), dtype=np.int32)] *)
Definition np_ones_int32 (n : nat) : list Z := repeat 1 n.

(** ** The collaborators outside the repository *)

Class External := {
  (** Python floats of a prompt and of a score: never inspected by the
      handlers. *)
  float : Type;
  (** The value a float takes in an array of dtype [np.float32]. *)
  np_float32 : float -> float;
  (** A [SamPredictor] whose image has been set. *)
  Predictor : Type;
  (** [uuid.uuid4()] values with their two renderings. *)
  UUID : Type;
  uuid_hex : UUID -> string;
  uuid_str : UUID -> string;
  (** [Image.open(io.BytesIO(file_bytes)).convert("RGB")] *)
  PIL_open_RGB : bytes -> PyExn + PILImage;
  (** [SamPredictor(sam)] followed by [predictor.set_image(img_np)] *)
  SamPredictor_set_image : ndarray -> PyExn + Predictor;
  (** [predictor.predict(point_coords=, point_labels=, box=,
      multimask_output=)]: masks and scores (the logits are dropped). *)
  SamPredictor_predict :
    Predictor -> option (list (list float)) -> option (list Z) ->
    option (list (list float)) -> bool -> PyExn + (list Mask * list float);
  (** [os.path.splitext] *)
  os_path_splitext : string -> string * string
}.

(** [PASSWORDS], line 21. *)
Definition PASSWORDS : list string := ["pass1"; "pass2"; "pass3"; "pass4"].

Section Service.
Context `{Cv2} `{External}.

(** *** Requests and responses *)

Record SegmentRequest := {
  session_id : string;
  points : option (list (list float));
  point_labels : option (list Z);
  box : option (list float);
  multimask : bool
}.

Record UploadFile := {
  filename : option string;
  file_content : bytes
}.

Record MaskResult := {
  score : float;
  polygons : list Contour
}.

Record SegmentResponse := {
  image_size : list Z;
  num_masks : nat;
  masks : list MaskResult
}.

Record AuthResponse := { ok : bool }.

Record EndResponse := { status : string }.

Record StartResponse := {
  start_session_id : string;
  start_image_size : list Z;
  start_image_url : string
}.

(** *** The process state *)

(** One value of the [_sessions] dictionary. *)
Record Session := {
  sess_predictor : Predictor;
  sess_image_size : list Z;
  sess_image_url : string
}.

(** One call of [predictor.predict], as it was made. *)
Record PredictCall := {
  call_predictor : Predictor;
  call_point_coords : option (list (list float));
  call_point_labels : option (list Z);
  call_box : option (list (list float));
  call_multimask_output : bool
}.

(** The globals of the module, the files under [UPLOAD_DIR], and the
    history of the calls made to the model. *)
Record World := {
  _sessions : gmap string Session;
  current_index : Z;
  upload_dir : gmap string bytes;
  predict_calls : list PredictCall
}.

Definition initial_world : World :=
  {| _sessions := ∅; current_index := 0; upload_dir := ∅; predict_calls := [] |}.

Definition set_sessions (f : gmap string Session -> gmap string Session) (w : World) : World :=
  {| _sessions := f (_sessions w); current_index := current_index w;
     upload_dir := upload_dir w; predict_calls := predict_calls w |}.
Definition set_current_index (i : Z) (w : World) : World :=
  {| _sessions := _sessions w; current_index := i;
     upload_dir := upload_dir w; predict_calls := predict_calls w |}.
Definition write_file (path : string) (contents : bytes) (w : World) : World :=
  {| _sessions := _sessions w; current_index := current_index w;
     upload_dir := <[path := contents]> (upload_dir w);
     predict_calls := predict_calls w |}.
Definition log_call (c : PredictCall) (w : World) : World :=
  {| _sessions := _sessions w; current_index := current_index w;
     upload_dir := upload_dir w; predict_calls := predict_calls w ++ [c] |}.

(** *** The handler monad: state and exceptions *)

Definition M (A : Type) : Type := World -> Outcome A * World.

#[local] Instance M_ret : MRet M := fun A a w => (Return a, w).
#[local] Instance M_bind : MBind M := fun A B k m w =>
  match m w with
  | (Return a, w') => k a w'
  | (HTTPException s d, w') => (HTTPException s d, w')
  | (Unhandled e, w') => (Unhandled e, w')
  end.

Definition raise_http {A : Type} (status_code : Z) (detail : string) : M A :=
  fun w => (HTTPException status_code detail, w).
Definition throw {A : Type} (e : PyExn) : M A := fun w => (Unhandled e, w).
Definition gets {A : Type} (f : World -> A) : M A := fun w => (Return (f w), w).
Definition modify (f : World -> World) : M unit := fun w => (Return tt, f w).

(** A library call outside any [try]: its exception escapes. *)
Definition lift_exn {A : Type} (r : PyExn + A) : M A :=
  match r with inl e => throw e | inr a => mret a end.

(** *** _to_np_image *)
Definition _to_np_image (file_bytes : bytes) : PyExn + ndarray :=
  match PIL_open_RGB file_bytes with
  | inl e => inl e
  | inr img => inr (np_array_of_image img)
  end.

(** *** POST /auth *)
Definition auth (data : gmap string string) : M AuthResponse :=
  idx ← gets current_index;
  let password := data !! "password" in
  match py_getitem PASSWORDS idx with
  | None => throw {| exn_class := "IndexError"; exn_msg := "list index out of range" |}
  | Some expected =>
      if decide (password = Some expected) then
        modify (set_current_index ((idx + 1) mod Z.of_nat (length PASSWORDS)));;
        mret {| ok := true |}
      else raise_http 401 "Invalid password"
  end.

(** *** POST /session/start

    The two [uuid.uuid4()] draws are inputs of the call. *)
Definition start_session (file : UploadFile) (u_img u_sess : UUID) : M StartResponse :=
  let contents := file_content file in
  match _to_np_image contents with
  | inl e => raise_http 400 ("Invalid image: " +:+ str e)
  | inr img_np =>
      match filename file with
      | None => throw {| exn_class := "TypeError";
                         exn_msg := "expected str, bytes or os.PathLike object, not NoneType" |}
      | Some name =>
          let ext := if decide (snd (os_path_splitext name) = "") then ".jpg"
                     else snd (os_path_splitext name) in
          let img_filename := uuid_hex u_img +:+ ext in
          modify (write_file img_filename contents);;
          predictor ← lift_exn (SamPredictor_set_image img_np);
          let session_id := uuid_str u_sess in
          modify (set_sessions (fun s =>
            <[session_id := {| sess_predictor := predictor;
                               sess_image_size := [shape1 img_np; shape0 img_np];
                               sess_image_url := "/uploads/" +:+ img_filename |}]> s));;
          sessions ← gets _sessions;
          match sessions !! session_id with
          | None => throw {| exn_class := "KeyError"; exn_msg := session_id |}
          | Some sess =>
              mret {| start_session_id := session_id;
                      start_image_size := sess_image_size sess;
                      start_image_url := sess_image_url sess |}
          end
      end
  end.

(** *** POST /segment *)

(** The call of [predictor.predict] inside [try ... except Exception]. *)
Definition predict_or_500 (predictor : Predictor)
    (point_coords : option (list (list float))) (point_labels : option (list Z))
    (box_np : option (list (list float))) (multimask_output : bool)
    : M (list Mask * list float) :=
  modify (log_call {| call_predictor := predictor;
                      call_point_coords := point_coords;
                      call_point_labels := point_labels;
                      call_box := box_np;
                      call_multimask_output := multimask_output |});;
  match SamPredictor_predict predictor point_coords point_labels box_np multimask_output with
  | inl e => raise_http 500 ("SAM prediction failed: " +:+ str e)
  | inr r => mret r
  end.

Definition segment (req : SegmentRequest) : M SegmentResponse :=
  sessions ← gets _sessions;
  match sessions !! session_id req with
  | None => raise_http 404 "Invalid session_id. Please start a session first."
  | Some sess =>
      let predictor := sess_predictor sess in
      prompt ← match points req with
               | Some ((_ :: _) as pts) =>
                   point_coords ← lift_exn (np_array_2d np_float32 pts);
                   point_labels ←
                     match point_labels req with
                     | Some ((_ :: _) as labels) =>
                         if (length labels =? length pts)%nat
                         then lift_exn (np_array_int32 labels)
                         else mret (np_ones_int32 (length pts))
                     | _ => mret (np_ones_int32 (length pts))
                     end;
                   mret (Some point_coords, Some point_labels)
               | _ => mret (None, None)
               end;
      box_np ← match box req with
               | Some ((_ :: _) as b) =>
                   if negb (length b =? 4)%nat
                   then raise_http 400 "box must be [x1,y1,x2,y2]"
                   else mret (Some [map np_float32 b])
               | _ => mret None
               end;
      r ← predict_or_500 predictor (fst prompt) (snd prompt) box_np (multimask req);
      let out := map (fun ms => {| score := snd ms;
                                   polygons := _mask_to_polygons (fst ms)
                                                 default_simplify_eps default_min_area_px |})
                     (combine (fst r) (snd r)) in
      mret {| image_size := sess_image_size sess;
              num_masks := length out;
              masks := out |}
  end.

(** *** POST /session/end *)
Definition end_session (sid : string) : M EndResponse :=
  sessions ← gets _sessions;
  if decide (is_Some (sessions !! sid)) then
    modify (set_sessions (delete sid));;
    mret {| status := "ended" |}
  else raise_http 404 "Invalid session_id".

(** *** Histories of requests

    Handlers run to completion on the event loop, one after the other.
    [GET /health] touches none of these globals and is left out. *)

Inductive Request :=
| ReqAuth (data : gmap string string)
| ReqStart (file : UploadFile) (u_img u_sess : UUID)
| ReqSegment (req : SegmentRequest)
| ReqEnd (sid : string).

(** The state a request leaves behind, whatever it answers. *)
Definition handle (r : Request) (w : World) : World :=
  match r with
  | ReqAuth data => snd (auth data w)
  | ReqStart file u_img u_sess => snd (start_session file u_img u_sess w)
  | ReqSegment req => snd (segment req w)
  | ReqEnd sid => snd (end_session sid w)
  end.

Definition run (rs : list Request) (w : World) : World := foldl (fun w r => handle r w) w rs.

Definition reachable (w : World) : Prop := exists rs, w = run rs initial_world.

(** No request of the history opens a session under [sid]: the session
    ids drawn by [uuid.uuid4()] differ from it. *)
Definition never_draws (sid : string) (rs : list Request) : Prop :=
  Forall (fun r => match r with
                   | ReqStart _ _ u_sess => uuid_str u_sess <> sid
                   | _ => True
                   end) rs.
End Service.

(** ** The prompt of a segment call, step by step

    The three stages of [segment] between the session lookup and the model
    call, as functions of the request alone. *)
Section Prompt.
Context `{Cv2} `{External}.

(** Lines 178-185: [point_coords] and [point_labels]. *)
Definition prompt_arrays (req : SegmentRequest)
    : PyExn + (option (list (list float)) * option (list Z)) :=
  match points req with
  | Some ((_ :: _) as pts) =>
      match np_array_2d np_float32 pts with
      | inl e => inl e
      | inr point_coords =>
          match point_labels req with
          | Some ((_ :: _) as labels) =>
              if (length labels =? length pts)%nat
              then match np_array_int32 labels with
                   | inl e => inl e
                   | inr point_labels => inr (Some point_coords, Some point_labels)
                   end
              else inr (Some point_coords, Some (np_ones_int32 (length pts)))
          | _ => inr (Some point_coords, Some (np_ones_int32 (length pts)))
          end
      end
  | _ => inr (None, None)
  end.

(** Lines 187-191: [box_np], or nothing when the length check raises. *)
Definition box_array (req : SegmentRequest) : option (option (list (list float))) :=
  match box req with
  | Some ((_ :: _) as b) =>
      if negb (length b =? 4)%nat then None else Some (Some [map np_float32 b])
  | _ => Some None
  end.

(** Lines 203-215: the body answered for the masks and scores. *)
Definition segment_body (sess : Session) (r : list Mask * list float) : SegmentResponse :=
  let out := map (fun ms => {| score := snd ms;
                               polygons := _mask_to_polygons (fst ms)
                                             default_simplify_eps default_min_area_px |})
                 (combine (fst r) (snd r)) in
  {| image_size := sess_image_size sess; num_masks := length out; masks := out |}.

Definition the_call (sess : Session) (req : SegmentRequest)
    (prompt : option (list (list float)) * option (list Z))
    (box_np : option (list (list float))) : PredictCall :=
  {| call_predictor := sess_predictor sess;
     call_point_coords := fst prompt;
     call_point_labels := snd prompt;
     call_box := box_np;
     call_multimask_output := multimask req |}.

(** The same request with other labels, with another box. *)
Definition with_point_labels (req : SegmentRequest) (l : option (list Z)) : SegmentRequest :=
  {| session_id := session_id req; points := points req; point_labels := l;
     box := box req; multimask := multimask req |}.
Definition with_box (req : SegmentRequest) (b : option (list float)) : SegmentRequest :=
  {| session_id := session_id req; points := points req;
     point_labels := point_labels req; box := b; multimask := multimask req |}.

(** The session written by [start_session], lines 156-160. *)
Definition new_session (img_np : ndarray) (predictor : Predictor) (img_filename : string)
    : Session :=
  {| sess_predictor := predictor;
     sess_image_size := [shape1 img_np; shape0 img_np];
     sess_image_url := "/uploads/" +:+ img_filename |}.

Definition upload_name (name : string) (u_img : UUID) : string :=
  uuid_hex u_img +:+
  (if decide (snd (os_path_splitext name) = "") then ".jpg" else snd (os_path_splitext name)).

Definition index_in_range (w : World) : Prop :=
  0 <= current_index w < Z.of_nat (length PASSWORDS).
End Prompt.

(** ** A model of the OpenCV operations

    An executable instance of [Cv2], written after the OpenCV reference
    and used to run the vectoriser on concrete masks.  Pixels outside the
    raster count as background for border following and are skipped by
    erosion and dilation (the default border of [morphologyEx]). *)
Module OpenCV.

(** [img[y, x]] when the position is inside the raster. *)
Definition pixel (img : Image) (y x : Z) : option Z :=
  if (y <? 0) || (x <? 0) then None
  else img !! Z.to_nat y ≫= fun row => row !! Z.to_nat x.

(** The offsets (dy, dx) of the non-zero cells of a structuring
    element, relative to its centre. *)
Definition kernel_offsets (kernel : Image) : list (Z * Z) :=
  let ay := Z.of_nat (length kernel) / 2 in
  concat (imap (fun i row =>
    let ax := Z.of_nat (length row) / 2 in
    omap (fun jv => if snd jv =? 0 then None
                    else Some (Z.of_nat i - ay, Z.of_nat (fst jv) - ax))
         (imap pair row)) kernel).

Definition window (img : Image) (offs : list (Z * Z)) (y x : nat) : list Z :=
  omap (fun d => pixel img (Z.of_nat y + fst d) (Z.of_nat x + snd d)) offs.

Definition erode (img kernel : Image) : Image :=
  imap (fun y row =>
    imap (fun x _ => foldr Z.min 255 (window img (kernel_offsets kernel) y x)) row) img.

Definition dilate (img kernel : Image) : Image :=
  imap (fun y row =>
    imap (fun x _ => foldr Z.max 0 (window img (kernel_offsets kernel) y x)) row) img.

Definition morphologyEx (src : Image) (op : MorphOp) (kernel : Image) : Image :=
  match op with
  | MORPH_ERODE => erode src kernel
  | MORPH_DILATE => dilate src kernel
  | MORPH_OPEN => dilate (erode src kernel) kernel
  | MORPH_CLOSE => erode (dilate src kernel) kernel
  end.

(** *** Border following (Suzuki and Abe) of the outer borders, as
    [findContours] does it with RETR_EXTERNAL and CHAIN_APPROX_SIMPLE.

    Directions are Freeman codes: 0 is east, then counter-clockwise on
    the screen (1 north-east, 2 north, ...). *)
Definition deltas : list (Z * Z) :=
  [(1, 0); (1, -1); (0, -1); (-1, -1); (-1, 0); (-1, 1); (0, 1); (1, 1)].
Definition step (p : Point) (s : Z) : Point :=
  let d := nth (Z.to_nat (s mod 8)) deltas (0, 0) in
  (fst p + fst d, snd p + snd d).

Definition foreground (img : Image) (p : Point) : bool :=
  match pixel img (snd p) (fst p) with
  | Some v => negb (v =? 0)
  | None => false
  end.

(** The first direction, from [s] on and turning by [turn], whose
    neighbour is foreground. *)
Fixpoint search (img : Image) (p : Point) (s turn : Z) (k : nat) : option Z :=
  match k with
  | O => None
  | S k =>
      if foreground img (step p s) then Some (s mod 8)
      else search img p (s + turn) turn k
  end.

(** Follow the border from [i3], entered along direction [s]; a vertex
    is written where the direction changes (CHAIN_APPROX_SIMPLE). *)
Fixpoint follow (fuel : nat) (img : Image) (i0 i1 i3 : Point) (s prev_s : Z)
    : list Point :=
  match fuel with
  | O => []
  | S fuel =>
      match search img i3 (s + 1) 1 8 with
      | None => []
      | Some s' =>
          let i4 := step i3 s' in
          let rest :=
            if decide (i4 = i0 /\ i3 = i1) then []
            else follow fuel img i0 i1 i4 ((s' + 4) mod 8) s' in
          if s' =? prev_s then rest else i3 :: rest
      end
  end.

Definition trace (img : Image) (i0 : Point) : Contour :=
  match search img i0 3 (-1) 8 with
  | None => [i0]
  | Some s =>
      follow (8 * length img * length (concat img)) img i0 (step i0 s) i0 s ((s + 4) mod 8)
  end.

(** The first foreground pixel in raster order, as (x, y). *)
Definition first_foreground (img : Image) : option Point :=
  list_find (fun p : Point => foreground img p = true)
    (concat (imap (fun y row => imap (fun x _ => (Z.of_nat x, Z.of_nat y)) row) img))
  ≫= fun r => Some (snd r).

(** Sets of pixels, as grids of booleans of the shape of the image. *)
Definition member (g : list (list bool)) (p : Point) : bool :=
  if (snd p <? 0) || (fst p <? 0) then false
  else default false (g !! Z.to_nat (snd p) ≫= fun row => row !! Z.to_nat (fst p)).

(** One sweep adds every allowed pixel that has a neighbour in the set;
    [grow] sweeps until nothing is added. *)
Definition sweep (dirs : list (Z * Z)) (allowed : Point -> bool) (cur : list (list bool))
    : list (list bool) :=
  imap (fun y row =>
    imap (fun x (b : bool) =>
      let p := (Z.of_nat x, Z.of_nat y) in
      b || (allowed p &&
            existsb (fun d : Z * Z => member cur (fst p + fst d, snd p + snd d)) dirs))
      row) cur.

Fixpoint grow (fuel : nat) (dirs : list (Z * Z)) (allowed : Point -> bool)
    (cur : list (list bool)) : list (list bool) :=
  match fuel with
  | O => cur
  | S fuel =>
      let next := sweep dirs allowed cur in
      if bool_decide (next = cur) then cur else grow fuel dirs allowed next
  end.

Definition four_neighbours : list (Z * Z) := [(1, 0); (0, -1); (-1, 0); (0, 1)].

(** The background joined to the frame around the image: what is left
    of the background are the holes of the regions. *)
Definition outside (img : Image) : list (list bool) :=
  let h := length img in
  grow (length (concat img)) four_neighbours (fun p => negb (foreground img p))
    (imap (fun y row =>
       imap (fun x v =>
         (v =? 0) && ((y =? 0)%nat || (S y =? h)%nat || (x =? 0)%nat
                      || (S x =? length row)%nat)) row) img).

(** The 8-connected region of a foreground pixel. *)
Definition region_of (img : Image) (i0 : Point) : list (list bool) :=
  grow (length (concat img)) deltas (foreground img)
    (imap (fun y row =>
       imap (fun x (_ : Z) => bool_decide ((Z.of_nat x, Z.of_nat y) = i0)) row) img).

Definition erase (img : Image) (region : list (list bool)) : Image :=
  imap (fun y row =>
    imap (fun x v => if member region (Z.of_nat x, Z.of_nat y) then 0 else v) row) img.

(** RETR_EXTERNAL: the outer border of every region that does not lie in
    a hole of another one, the region found last coming first. *)
Fixpoint outer_borders (fuel : nat) (out : list (list bool)) (img : Image)
    : list Contour :=
  match fuel with
  | O => []
  | S fuel =>
      match first_foreground img with
      | None => []
      | Some i0 =>
          let rest := outer_borders fuel out (erase img (region_of img i0)) in
          if (fst i0 - 1 <? 0) || member out (fst i0 - 1, snd i0)
          then rest ++ [trace img i0]
          else rest
      end
  end.

Definition findContours (img : Image) (mode : RetrievalMode) (method : ApproxMethod)
    : list Contour :=
  outer_borders (S (length (concat img))) (outside img) img.

(** *** approxPolyDP on a closed curve (Douglas-Peucker)

    As OpenCV runs it: three rounds of farthest-point search pick two
    distant vertices, the two arcs between them are split recursively
    at the vertex farthest from the chord while that distance exceeds
    [epsilon], and a last pass drops vertices left on almost straight
    slanted lines. *)
Definition sqdist (a b : Point) : Z :=
  (fst b - fst a) * (fst b - fst a) + (snd b - snd a) * (snd b - snd a).
Definition chord_dist (a b p : Point) : Z :=
  Z.abs ((snd p - snd a) * (fst b - fst a) - (fst p - fst a) * (snd b - snd a)).

(** Position and value of the first strict maximum of [f], from the
    running best [(j0, m0)]; positions count from [j]. *)
Fixpoint argmax (f : Point -> Z) (l : list Point) (j j0 : nat) (m0 : Z) : nat * Z :=
  match l with
  | [] => (j0, m0)
  | p :: l' => if m0 <? f p then argmax f l' (S j) j (f p) else argmax f l' (S j) j0 m0
  end.

Definition rotate_to (n : nat) (l : list Point) : list Point := drop n l ++ take n l.

(** One round: restart from the vertex found last, look for the
    farthest vertex from there. *)
Definition far_round (src : list Point) (st : nat * nat * Z) : nat * nat * Z :=
  let '(pos, j, _) := st in
  let pos := ((pos + j) mod length src)%nat in
  match rotate_to pos src with
  | [] => (pos, j, 0)
  | start_pt :: others =>
      let '(j', m) := argmax (sqdist start_pt) others 1 j 0 in (pos, j', m)
  end.

(** The vertices kept on the arc from [a] to [b] through [mid], [b]
    excluded. *)
Fixpoint split_arc (fuel : nat) (eps2 : Q) (a : Point) (mid : list Point) (b : Point)
    : list Point :=
  match fuel with
  | O => [a]
  | S fuel =>
      match mid with
      | [] => [a]
      | _ =>
          let '(k, m) := argmax (chord_dist a b) mid 0 0 0 in
          if Qle_bool (inject_Z (m * m)) (eps2 * inject_Z (sqdist a b)) then [a]
          else match mid !! k with
               | None => [a]
               | Some p =>
                   split_arc fuel eps2 a (take k mid) p ++
                   split_arc fuel eps2 p (drop (S k) mid) b
               end
      end
  end.

Definition next_index (count pos : nat) : nat :=
  if (count <=? S pos)%nat then O else S pos.

Definition on_slanted_line (eps2 : Q) (start_pt pt end_pt : Point) : bool :=
  let dx := fst end_pt - fst start_pt in
  let dy := snd end_pt - snd start_pt in
  let dist := Z.abs ((fst pt - fst start_pt) * dy - (snd pt - snd start_pt) * dx) in
  let inner := (fst pt - fst start_pt) * (fst end_pt - fst pt)
             + (snd pt - snd start_pt) * (snd end_pt - snd pt) in
  Qle_bool (inject_Z (dist * dist)) ((1 # 2) * eps2 * inject_Z (dx * dx + dy * dy))
  && negb (dx =? 0) && negb (dy =? 0) && (0 <=? inner).

(** The last pass, in place on [dst] as in the C++ loop. *)
Fixpoint clean_up (fuel count : nat) (eps2 : Q) (dst : list Point)
    (i pos wpos : nat) (start_pt pt : Point) (new_count : nat) : list Point :=
  match fuel with
  | O => take new_count dst
  | S fuel =>
      if (i <? count)%nat && (2 <? new_count)%nat then
        let end_pt := nth pos dst pt in
        let pos := next_index count pos in
        if on_slanted_line eps2 start_pt pt end_pt then
          let dst := <[wpos := end_pt]> dst in
          clean_up fuel count eps2 dst (S (S i)) (next_index count pos)
                   (next_index count wpos) end_pt (nth pos dst end_pt) (new_count - 1)
        else
          let dst := <[wpos := pt]> dst in
          clean_up fuel count eps2 dst (S i) pos (next_index count wpos) pt end_pt new_count
      else take new_count dst
  end.

Definition approxPolyDP (curve : Contour) (epsilon : Q) (closed : bool) : Contour :=
  let count := length curve in
  let eps2 := (epsilon * epsilon)%Q in
  match curve with
  | [] => []
  | p0 :: _ =>
      let '(pos, j, m) :=
        far_round curve (far_round curve (far_round curve (O, O, 0))) in
      if Qle_bool (inject_Z m) eps2 then [nth pos curve p0]
      else
        let l := rotate_to pos curve in
        let a := nth O l p0 in
        let b := nth j l p0 in
        let dst := split_arc count eps2 a (take (j - 1) (drop 1 l)) b ++
                   split_arc count eps2 b (drop (S j) l) a in
        let n := length dst in
        match n with
        | O => dst
        | S n1 =>
            clean_up n n eps2 dst O (next_index n O) O (nth n1 dst p0) (nth O dst p0) n
        end
  end.
End OpenCV.

(** ** A region whose outline shrinks under simplification

    A 40 x 17 mask: a block of 30 x 6 pixels with a strip of 11 pixels
    resting on its upper side. *)
Definition strip_row : list bool := repeat false 15 ++ repeat true 11 ++ repeat false 14.
Definition block_row : list bool := repeat false 5 ++ repeat true 30 ++ repeat false 5.
Definition empty_row : list bool := repeat false 40.
Definition block_with_strip : Mask :=
  repeat empty_row 5 ++ [strip_row] ++ repeat block_row 6 ++ repeat empty_row 5.
Definition empty_mask : Mask := repeat empty_row 17.

(** Two separate blocks on a 9 x 16 mask: a 5 x 7 one, met first in raster
    order, and a 4 x 4 one to its left. *)
Definition large_only_row : list bool := repeat false 7 ++ repeat true 7 ++ repeat false 2.
Definition both_blocks_row : list bool :=
  [false] ++ repeat true 4 ++ repeat false 2 ++ repeat true 7 ++ repeat false 2.
Definition two_blocks : Mask :=
  [repeat false 16] ++ [large_only_row] ++ repeat both_blocks_row 4
  ++ repeat (repeat false 16) 3.
Definition large_block : Contour := [(7, 1); (7, 5); (13, 5); (13, 1)].
Definition small_block : Contour := [(1, 2); (1, 5); (4, 5); (4, 2)].

#[export] Instance opencv : Cv2.
Proof.
  refine {| morphologyEx := OpenCV.morphologyEx;
            findContours := OpenCV.findContours;
            approxPolyDP := OpenCV.approxPolyDP;
            morphologyEx_open_blank := _;
            findContours_blank := _ |}.
  all: assert (Hpix : forall im, blank im ->
         forall y x v, OpenCV.pixel im y x = Some v -> v = 0).
  1,3: intros im Him y x v; unfold OpenCV.pixel;
       destruct ((y <? 0) || (x <? 0)); [discriminate|];
       destruct (im !! Z.to_nat y) as [row|] eqn:Er; [|discriminate];
       cbn; intros Hv; unfold blank in Him;
       rewrite Forall_lookup in Him; specialize (Him _ _ Er);
       rewrite Forall_lookup in Him; eapply Him; eassumption.
  - intros img h w _ _ Hshape Hb. unfold OpenCV.morphologyEx.
    assert (Hkeep : forall (f : nat -> nat -> Z -> Z) (im : Image),
              has_shape h w im ->
              has_shape h w (imap (fun y row => imap (f y) row) im)).
    { intros f im [Hh Hw]. split; [now rewrite length_imap|].
      apply Forall_forall. intros row Hrow.
      apply elem_of_lookup_imap_1 in Hrow as (y & r & -> & Hr).
      rewrite length_imap. rewrite Forall_lookup in Hw. exact (Hw _ _ Hr). }
    split; [apply Hkeep, Hkeep, Hshape|].
    assert (Hwin : forall im offs y x, blank im ->
              Forall (fun v => v = 0) (OpenCV.window im offs y x)).
    { intros im offs y x Him. apply Forall_forall. intros v Hv.
      apply list_elem_of_omap in Hv as (d & _ & Hd). eapply Hpix; eassumption. }
    assert (Hmax : forall l, Forall (fun v => v = 0) l -> foldr Z.max 0 l = 0).
    { induction 1 as [|v l -> _ IH]; cbn; [reflexivity|]. rewrite IH. reflexivity. }
    assert (Hmin : forall l, Forall (fun v => v = 0) l -> l <> [] -> foldr Z.min 255 l = 0).
    { intros l Hl Hne. destruct Hl as [|v l -> Hl]; [congruence|]. cbn.
      assert (0 <= foldr Z.min 255 l) as Hpos.
      { clear Hne. induction Hl as [|v l -> _ IH]; cbn; [lia|].
        apply Z.min_glb; [lia|exact IH]. }
      apply Z.min_l, Hpos. }
    assert (Herode : blank (OpenCV.erode img (np_ones_u8 3 3))).
    { apply Forall_forall. intros row Hrow.
      apply elem_of_lookup_imap_1 in Hrow as (y & r & -> & Hr).
      apply Forall_forall. intros v Hv.
      apply elem_of_lookup_imap_1 in Hv as (x & v0 & -> & Hx).
      apply Hmin; [apply Hwin, Hb|]. intros Hnil.
      assert (v0 ∈ OpenCV.window img (OpenCV.kernel_offsets (np_ones_u8 3 3)) y x) as Hin.
      { apply list_elem_of_omap. exists (0, 0). split.
        - apply list_elem_of_In. vm_compute. tauto.
        - cbn [fst snd]. rewrite !Z.add_0_r. unfold OpenCV.pixel.
          destruct (Z.ltb_spec (Z.of_nat y) 0); [lia|].
          destruct (Z.ltb_spec (Z.of_nat x) 0); [lia|].
          cbn [orb]. rewrite !Nat2Z.id.
          transitivity (Some r ≫= fun row : list Z => row !! x);
            [f_equal; exact Hr|exact Hx]. }
      rewrite Hnil in Hin. inversion Hin. }
    apply Forall_forall. intros row Hrow.
    apply elem_of_lookup_imap_1 in Hrow as (y & r & -> & Hr).
    apply Forall_forall. intros v Hv.
    apply elem_of_lookup_imap_1 in Hv as (x & v0 & -> & Hx).
    apply Hmax, Hwin, Herode.
  - intros img h w mode method _ _ _ Hb.
    unfold OpenCV.findContours. cbn [OpenCV.outer_borders].
    assert (OpenCV.first_foreground img = None) as ->; [|reflexivity].
    unfold OpenCV.first_foreground.
    match goal with |- context [list_find ?P ?l] =>
      assert (list_find P l = None) as -> end; [|reflexivity].
    apply list_find_None, Forall_forall. intros p _.
    unfold OpenCV.foreground.
    destruct (OpenCV.pixel img (snd p) (fst p)) as [v|] eqn:E; [|discriminate].
    rewrite (Hpix img Hb _ _ _ E). discriminate.
Defined.

(** ** Stand-ins for the other collaborators

    A toy picture format and a model double that answers with fixed
    masks: enough to run the handlers on concrete requests. *)
Module Stub.
Definition byte_Z (b : Byte.byte) : Z := Z.of_N (Byte.to_N b).

Definition cannot_identify : PyExn :=
  {| exn_class := "UnidentifiedImageError"; exn_msg := "cannot identify image file" |}.

(** Two header bytes, width and height, then the pixel data. *)
Definition PIL_open_RGB (b : bytes) : PyExn + PILImage :=
  match b with
  | w :: h :: _ =>
      if (byte_Z w =? 0) || (byte_Z h =? 0) then inl cannot_identify
      else inr {| im_width := byte_Z w; im_height := byte_Z h; im_pixels := [] |}
  | _ => inl cannot_identify
  end.

Definition set_image (img_np : ndarray) : PyExn + ndarray := inr img_np.

(** Point prompts must be (x, y) pairs; the masks do not depend on the
    prompt. *)
Definition predict (predictor : ndarray) (point_coords : option (list (list Q)))
    (point_labels : option (list Z)) (box : option (list (list Q)))
    (multimask_output : bool) : PyExn + (list Mask * list Q) :=
  if forallb (fun r : list Q => (length r =? 2)%nat) (default [] point_coords)
  then if multimask_output
       then inr ([block_with_strip; empty_mask], [9 # 10; 1 # 10]%Q)
       else inr ([block_with_strip], [9 # 10]%Q)
  else inl {| exn_class := "RuntimeError"; exn_msg := "shape mismatch" |}.

(** [os.path.splitext] on a POSIX path: the extension starts at the last
    dot of the last component, unless only dots precede it there. *)
Fixpoint last_index (c : Ascii.ascii) (cs : list Ascii.ascii) (i : nat)
    (best : option nat) : option nat :=
  match cs with
  | [] => best
  | x :: rest => last_index c rest (S i) (if Ascii.eqb x c then Some i else best)
  end.

Definition dot_char : Ascii.ascii := Ascii.ascii_of_nat 46.
Definition slash_char : Ascii.ascii := Ascii.ascii_of_nat 47.

Definition splitext (p : string) : string * string :=
  let cs := String.list_ascii_of_string p in
  match last_index dot_char cs O None with
  | None => (p, "")
  | Some dot =>
      let start := match last_index slash_char cs O None with
                   | None => O
                   | Some sep => S sep
                   end in
      if (start <=? dot)%nat
         && existsb (fun c => negb (Ascii.eqb c dot_char)) (take (dot - start) (drop start cs))
      then (String.string_of_list_ascii (take dot cs), String.string_of_list_ascii (drop dot cs))
      else (p, "")
  end.

(** The nearest float32 of a rational, ties to even, with gradual
    underflow; rationals have no infinity, so the overflow of values
    beyond the float32 range is not represented. *)
Definition pow2 (k : Z) : Q :=
  if 0 <=? k then inject_Z (2 ^ k) else (/ inject_Z (2 ^ (- k)))%Q.

Definition round_half_even (x : Q) : Z :=
  let f := Qfloor x in
  match Qcompare (x - inject_Z f) (1 # 2) with
  | Lt => f
  | Gt => f + 1
  | Eq => if Z.even f then f else f + 1
  end.

Definition float32 (q : Q) : Q :=
  if Qeq_bool q 0 then 0%Q
  else
    let a := Qabs q in
    let e0 := Z.log2 (Qnum a) - Z.log2 (Zpos (Qden a)) in
    let e1 := if Qle_bool (pow2 e0) a then e0 else e0 - 1 in
    let e := Z.max e1 (- 126) in
    let m := round_half_even (a * pow2 (23 - e)) in
    Qred ((if Qle_bool 0 q then 1 else - (1)) * inject_Z m * pow2 (e - 23))%Q.
End Stub.

#[export] Instance stub : External := {
  float := Q;
  np_float32 := Stub.float32;
  Predictor := ndarray;
  UUID := string;
  uuid_hex := id;
  uuid_str := id;
  PIL_open_RGB := Stub.PIL_open_RGB;
  SamPredictor_set_image := Stub.set_image;
  SamPredictor_predict := Stub.predict;
  os_path_splitext := Stub.splitext
}.

(** A 40 x 17 upload and the state after its session was started. *)
Definition upload_40x17 : UploadFile :=
  {| filename := Some "scan"; file_content := [Byte.x28; Byte.x11] |}.
Definition one_session : World :=
  run [ReqStart upload_40x17 "0a1b" "s-1"] initial_world.

Definition request (sid : string) (pts : option (list (list Q)))
    (labels : option (list Z)) (b : option (list Q)) : SegmentRequest :=
  {| session_id := sid; points := pts; point_labels := labels; box := b;
     multimask := true |}.

(** ** GET /health and the torch runtime *)

(** [torch.cuda.is_available()] and [torch.cuda.get_device_name(i)]. *)
Class Torch := {
  cuda_is_available : bool;
  cuda_get_device_name : Z -> PyExn + string
}.

Section Health.
Context `{External} `{Torch}.

(** [DEVICE], line 50. *)
Definition DEVICE : string := if cuda_is_available then "cuda" else "cpu".

(** Lines 112-120: the [try ... except Exception: pass] swallows a failing
    name query. *)
Definition health : M (gmap string string) :=
  let info : gmap string string := <["device" := DEVICE]> {["status" := "ok"]} in
  let info :=
    if decide (DEVICE = "cuda") then
      match cuda_get_device_name 0 with
      | inr name => <["cuda_device_name" := name]> info
      | inl _ => info
      end
    else info in
  M_ret _ info.
End Health.

(** ** Histories: what they contain and what they preserve *)
Section Histories.
Context `{Cv2} `{External}.

(** The number of [auth] calls of a history, run from [w], that answer
    [{ok: true}]. *)
Fixpoint auth_successes (rs : list Request) (w : World) : nat :=
  match rs with
  | [] => O
  | r :: rs' =>
      (match r with
       | ReqAuth data =>
           match fst (auth data w) with Return _ => 1%nat | _ => O end
       | _ => O
       end + auth_successes rs' (handle r w))%nat
  end.

(** No request of the history ends the session [sid]. *)
Definition never_ends (sid : string) (rs : list Request) : Prop :=
  Forall (fun r => match r with ReqEnd sid' => sid' <> sid | _ => True end) rs.

(** The stored url of a session names a file that is in the upload
    directory, and its size is a pair. *)
Definition session_backed (w : World) (sess : Session) : Prop :=
  exists name, sess_image_url sess = "/uploads/" +:+ name /\
               is_Some (upload_dir w !! name) /\
               length (sess_image_size sess) = 2%nat.

Definition sessions_backed (w : World) : Prop :=
  forall sid sess, _sessions w !! sid = Some sess -> session_backed w sess.

(** The model calls a request adds to the history of calls. *)
Definition calls_made (req : SegmentRequest) (w : World) : list PredictCall :=
  drop (length (predict_calls w)) (predict_calls (snd (segment req w))).

(** The same request without labels. *)
Definition without_labels (req : SegmentRequest) : SegmentRequest :=
  with_point_labels req None.

(** The contours [_mask_to_polygons] works on. *)
Definition contours_of (mask : Mask) : list Contour :=
  findContours (morphologyEx (mask_to_u8 mask) MORPH_OPEN (np_ones_u8 3 3))
    RETR_EXTERNAL CHAIN_APPROX_SIMPLE.
End Histories.

(** A runtime without accelerator, and one whose name query fails. *)
Definition torch_cpu : Torch :=
  {| cuda_is_available := false;
     cuda_get_device_name := fun _ => inl {| exn_class := "AssertionError";
                                             exn_msg := "Torch not compiled with CUDA enabled" |} |}.
Definition torch_cuda_unnamed : Torch :=
  {| cuda_is_available := true;
     cuda_get_device_name := fun _ => inl {| exn_class := "RuntimeError";
                                             exn_msg := "CUDA error" |} |}.

(** A predictor double that always raises, and a session that holds it. *)
Definition failing_stub : External := {|
  float := Q;
  np_float32 := Stub.float32;
  Predictor := ndarray;
  UUID := string;
  uuid_hex := id;
  uuid_str := id;
  PIL_open_RGB := Stub.PIL_open_RGB;
  SamPredictor_set_image := fun img_np =>
    if shape0 img_np <? 8 then inl {| exn_class := "RuntimeError"; exn_msg := "image too small" |}
    else inr img_np;
  SamPredictor_predict := fun _ _ _ _ _ =>
    inl {| exn_class := "RuntimeError"; exn_msg := "out of memory" |};
  os_path_splitext := Stub.splitext
|}.

Definition upload_garbage : UploadFile :=
  {| filename := Some "notes.txt"; file_content := [Byte.x00] |}.

(** The state after a session was started on the failing predictor. *)
Definition failing_session : @World failing_stub :=
  @run opencv failing_stub [@ReqStart failing_stub upload_40x17 "0a1b" "s-1"]
       (@initial_world failing_stub).

Definition failing_request (sid : string) : @SegmentRequest failing_stub :=
  {| session_id := sid; points := None; point_labels := None; box := None;
     multimask := true |}.

(** What the model double makes [segment] answer on [one_session]. *)
Definition two_masks_response : @SegmentResponse stub :=
  {| image_size := [40; 17]; num_masks := 2;
     masks := [ {| score := (9 # 10)%Q;
                   polygons := [[(5, 6); (5, 11); (34, 11); (34, 6)]] |};
                {| score := (1 # 10)%Q; polygons := [] |} ] |}.

Definition failing_entry : @Session failing_stub :=
  @Build_Session failing_stub
    (np_array_of_image {| im_width := 40; im_height := 17; im_pixels := [] |})
    [40; 17] "/uploads/0a1b.jpg".

(** The entry of [one_session]. *)
Definition one_entry : @Session stub :=
  @Build_Session stub
    (np_array_of_image {| im_width := 40; im_height := 17; im_pixels := [] |})
    [40; 17] "/uploads/0a1b.jpg".

(** * Properties *)

(** Closes an equation between closed terms by evaluating both sides. *)
Ltac by_computation :=
  lazymatch goal with
  | |- @eq ?T ?a ?b => exact (@eq_refl T b <: @eq T a b)
  end.

(** ** The sort *)
Section SortFacts.
Context {A : Type} (key : A -> Q).

Lemma insert_desc_perm (x : A) (l : list A) : insert_desc key x l ≡ₚ x :: l.
Proof.
  induction l as [|y l IH]; simpl; [reflexivity|].
  destruct (Qle_bool (key y) (key x)); [reflexivity|].
  rewrite IH. apply Permutation_swap.
Qed.

Lemma sort_reverse_perm (l : list A) : sort_reverse key l ≡ₚ l.
Proof.
  induction l as [|x l IH]; simpl; [reflexivity|].
  rewrite insert_desc_perm. now rewrite IH.
Qed.

Lemma insert_desc_HdRel (a x : A) (l : list A) :
  key_ge key a x -> HdRel (key_ge key) a l -> HdRel (key_ge key) a (insert_desc key x l).
Proof.
  intros Hax Hal. destruct l as [|y l]; simpl; [now constructor|].
  destruct (Qle_bool (key y) (key x)); constructor; trivial.
  now inversion Hal.
Qed.

Lemma insert_desc_Sorted (x : A) (l : list A) :
  Sorted (key_ge key) l -> Sorted (key_ge key) (insert_desc key x l).
Proof.
  induction 1 as [|y l Hs IH Hhd]; simpl.
  - repeat constructor.
  - destruct (Qle_bool (key y) (key x)) eqn:E.
    + apply Qle_bool_iff in E. repeat constructor; trivial.
    + constructor; [exact IH|].
      apply insert_desc_HdRel; [|exact Hhd].
      unfold key_ge. destruct (Qlt_le_dec (key y) (key x)) as [Hlt|Hle]; [|exact Hle].
      apply Qlt_le_weak, Qle_bool_iff in Hlt. congruence.
Qed.

Lemma sort_reverse_Sorted (l : list A) : Sorted (key_ge key) (sort_reverse key l).
Proof.
  induction l as [|x l IH]; simpl; [constructor|].
  now apply insert_desc_Sorted.
Qed.

Lemma Sorted_descending (l : list A) : Sorted (key_ge key) l -> descending key l.
Proof.
  induction 1 as [|x l Hs IH Hhd]; intros i a b Ha Hb; [discriminate|].
  destruct i as [|i]; simpl in *.
  - injection Ha as <-. destruct l as [|y l]; [discriminate|].
    injection Hb as <-. now inversion Hhd.
  - eapply IH; eassumption.
Qed.

Lemma sort_reverse_descending (l : list A) : descending key (sort_reverse key l).
Proof. apply Sorted_descending, sort_reverse_Sorted. Qed.

Lemma sort_reverse_In (x : A) (l : list A) : In x (sort_reverse key l) <-> In x l.
Proof.
  split; apply Permutation_in; [|symmetry]; apply sort_reverse_perm.
Qed.
End SortFacts.

(** ** The vectoriser *)
Section VectorizerFacts.
Context `{Cv2}.

Lemma collect_polys_In (contours : list Contour) (eps : Q) (min_area : Z) (p : Contour) :
  In p (collect_polys contours eps min_area) <->
  exists cnt, In cnt contours /\ (inject_Z min_area <= contourArea cnt)%Q /\
              p = simplified cnt eps /\ (3 <= length p)%nat.
Proof.
  induction contours as [|c rest IH]; cbn [collect_polys].
  - split; [intros []|]. intros (cnt & [] & _).
  - fold (simplified c eps). unfold Qlt_bool at 1.
    destruct (Qle_bool (inject_Z min_area) (contourArea c)) eqn:Ea; cbn [negb].
    + apply Qle_bool_iff in Ea.
      destruct (3 <=? length (simplified c eps))%nat eqn:El.
      * apply Nat.leb_le in El. cbn [In]. rewrite IH. split.
        -- intros [<-|(cnt & Hin & Hrest)]; [exists c|exists cnt]; cbn [In]; auto.
        -- intros (cnt & [->|Hin] & Hrest);
             [left; symmetry; apply Hrest|right; exists cnt; auto].
      * apply Nat.leb_gt in El. rewrite IH. split.
        -- intros (cnt & Hin & Hrest); exists cnt; cbn [In]; auto.
        -- intros (cnt & [->|Hin] & Ha & -> & Hl); [lia|exists cnt; auto].
    + assert (~ (inject_Z min_area <= contourArea c)%Q) as Hn
        by (rewrite <- Qle_bool_iff; congruence).
      rewrite IH. split.
      * intros (cnt & Hin & Hrest); exists cnt; cbn [In]; auto.
      * intros (cnt & [->|Hin] & Ha & Hrest); [contradiction|exists cnt; auto].
Qed.

Lemma mask_to_u8_blank (mask : Mask) : all_false mask -> blank (mask_to_u8 mask).
Proof.
  unfold all_false, blank, mask_to_u8. intros Hm.
  apply Forall_map. eapply Forall_impl; [exact Hm|].
  intros row Hrow. apply Forall_map. eapply Forall_impl; [exact Hrow|].
  now intros b ->.
Qed.

Lemma mask_to_u8_shape (h w : nat) (mask : Mask) :
  has_shape h w mask -> has_shape h w (mask_to_u8 mask).
Proof.
  unfold has_shape, mask_to_u8. intros [Hh Hw]. split; [now rewrite length_map|].
  apply Forall_map. eapply Forall_impl; [exact Hw|].
  intros row Hrow. cbn. now rewrite length_map.
Qed.

Lemma _mask_to_polygons_blank (h w : nat) (mask : Mask) (eps : Q) (min_area : Z) :
  (0 < h)%nat -> (0 < w)%nat -> has_shape h w mask ->
  all_false mask -> _mask_to_polygons mask eps min_area = [].
Proof.
  intros Hh Hw Hshape Hm. unfold _mask_to_polygons.
  destruct (morphologyEx_open_blank (mask_to_u8 mask) h w Hh Hw
              (mask_to_u8_shape h w mask Hshape) (mask_to_u8_blank mask Hm))
    as [Hs Hb].
  rewrite (findContours_blank _ h w _ _ Hh Hw Hs Hb). reflexivity.
Qed.
End VectorizerFacts.

(** ** The handlers *)
Section ServiceFacts.
Context `{Cv2} `{External}.

(** [segment], case by case. *)
Lemma segment_unfold (req : SegmentRequest) (w : World) :
  segment req w =
  match _sessions w !! session_id req with
  | None => (HTTPException 404 "Invalid session_id. Please start a session first.", w)
  | Some sess =>
      match prompt_arrays req with
      | inl e => (Unhandled e, w)
      | inr prompt =>
          match box_array req with
          | None => (HTTPException 400 "box must be [x1,y1,x2,y2]", w)
          | Some box_np =>
              let w' := log_call (the_call sess req prompt box_np) w in
              match SamPredictor_predict (sess_predictor sess) (fst prompt) (snd prompt)
                      box_np (multimask req) with
              | inl e => (HTTPException 500 ("SAM prediction failed: " +:+ str e), w')
              | inr r => (Return (segment_body sess r), w')
              end
          end
      end
  end.
Proof.
  unfold segment, prompt_arrays, box_array, predict_or_500, the_call, segment_body.
  unfold mbind, M_bind, mret, M_ret, gets, modify, raise_http, lift_exn, throw.
  cbn -[np_array_2d np_array_int32 np_ones_int32 length Nat.eqb _mask_to_polygons].
  destruct (_sessions w !! session_id req) as [sess|]; [|reflexivity].
  destruct (points req) as [[|p pts]|]; [| |];
    try (destruct (np_array_2d np_float32 (p :: pts)) as [e|pc]; [reflexivity|];
         destruct (point_labels req) as [[|l0 ls]|]; [| |];
         try (destruct (length (l0 :: ls) =? length (p :: pts))%nat; [|];
              try (destruct (np_array_int32 (l0 :: ls)) as [e|pl]; [reflexivity|])));
    cbn -[np_ones_int32 length Nat.eqb _mask_to_polygons];
    (destruct (box req) as [[|b0 b]|]; [| |];
     try (destruct (negb (length (b0 :: b) =? 4)%nat); [reflexivity|]);
     cbn -[np_ones_int32 length Nat.eqb _mask_to_polygons];
     match goal with
     | |- context [SamPredictor_predict ?a ?b ?c ?d ?e] =>
         destruct (SamPredictor_predict a b c d e); reflexivity
     end).
Qed.

Lemma end_session_unfold (sid : string) (w : World) :
  end_session sid w =
  match _sessions w !! sid with
  | Some _ => (Return {| status := "ended" |}, set_sessions (delete sid) w)
  | None => (HTTPException 404 "Invalid session_id", w)
  end.
Proof.
  unfold end_session, mbind, M_bind, mret, M_ret, gets, modify, raise_http. cbn.
  destruct (_sessions w !! sid) as [s|] eqn:E.
  - destruct (decide (is_Some (Some s))) as [_|n]; [reflexivity|].
    exfalso; apply n; eauto.
  - destruct (decide (is_Some (@None Session))) as [[s Hs]|_]; [discriminate|reflexivity].
Qed.

Lemma auth_unfold (data : gmap string string) (w : World) :
  auth data w =
  match py_getitem PASSWORDS (current_index w) with
  | None => (Unhandled {| exn_class := "IndexError"; exn_msg := "list index out of range" |}, w)
  | Some expected =>
      if decide (data !! "password" = Some expected)
      then (Return {| ok := true |},
            set_current_index ((current_index w + 1) mod Z.of_nat (length PASSWORDS)) w)
      else (HTTPException 401 "Invalid password", w)
  end.
Proof.
  unfold auth, mbind, M_bind, mret, M_ret, gets, modify, raise_http, throw.
  cbn -[py_getitem PASSWORDS Z.modulo].
  destruct (py_getitem PASSWORDS (current_index w)) as [expected|]; [|reflexivity].
  destruct (decide (data !! "password" = Some expected)); reflexivity.
Qed.

Lemma start_session_unfold (file : UploadFile) (u_img u_sess : UUID) (w : World) :
  start_session file u_img u_sess w =
  match _to_np_image (file_content file) with
  | inl e => (HTTPException 400 ("Invalid image: " +:+ str e), w)
  | inr img_np =>
      match filename file with
      | None => (Unhandled {| exn_class := "TypeError";
                   exn_msg := "expected str, bytes or os.PathLike object, not NoneType" |}, w)
      | Some name =>
          let w1 := write_file (upload_name name u_img) (file_content file) w in
          match SamPredictor_set_image img_np with
          | inl e => (Unhandled e, w1)
          | inr predictor =>
              let sess := new_session img_np predictor (upload_name name u_img) in
              (Return {| start_session_id := uuid_str u_sess;
                         start_image_size := sess_image_size sess;
                         start_image_url := sess_image_url sess |},
               set_sessions (fun s => <[uuid_str u_sess := sess]> s) w1)
          end
      end
  end.
Proof.
  unfold start_session, upload_name, new_session.
  destruct (_to_np_image (file_content file)) as [e|img_np]; [reflexivity|].
  destruct (filename file) as [name|]; [|reflexivity].
  unfold mbind, M_bind, mret, M_ret, gets, modify, raise_http, lift_exn, throw.
  cbn -[String.append].
  destruct (SamPredictor_set_image img_np) as [e|predictor]; [reflexivity|].
  cbn -[String.append]. rewrite lookup_insert_eq. reflexivity.
Qed.

(** *** What a request does to the globals *)

Lemma segment_frame (req : SegmentRequest) (w : World) :
  _sessions (snd (segment req w)) = _sessions w /\
  current_index (snd (segment req w)) = current_index w /\
  upload_dir (snd (segment req w)) = upload_dir w.
Proof.
  rewrite segment_unfold.
  destruct (_sessions w !! session_id req) as [sess|]; [|auto].
  destruct (prompt_arrays req) as [e|prompt]; [auto|].
  destruct (box_array req) as [box_np|]; [|auto].
  cbn zeta.
  destruct (SamPredictor_predict _ _ _ _ _); auto.
Qed.

Lemma handle_sessions_absent (sid : string) (r : Request) (w : World) :
  never_draws sid [r] -> _sessions w !! sid = None ->
  _sessions (handle r w) !! sid = None.
Proof.
  intros Hr Hw. apply Forall_inv in Hr. destruct r as [data|file u_img u_sess|req|sid']; cbn [handle].
  - rewrite auth_unfold. destruct (py_getitem _ _); [|exact Hw].
    destruct (decide _); exact Hw.
  - rewrite start_session_unfold.
    destruct (_to_np_image _); [exact Hw|].
    destruct (filename file); [|exact Hw]. cbn zeta.
    destruct (SamPredictor_set_image _); [exact Hw|].
    cbn. rewrite lookup_insert_ne; [exact Hw|exact Hr].
  - destruct (segment_frame req w) as [-> _]. exact Hw.
  - rewrite end_session_unfold. destruct (_sessions w !! sid'); [|exact Hw].
    cbn. destruct (decide (sid' = sid)) as [->|Hne].
    + apply lookup_delete_eq.
    + rewrite lookup_delete_ne; [exact Hw|exact Hne].
Qed.

Lemma run_sessions_absent (sid : string) (rs : list Request) (w : World) :
  never_draws sid rs -> _sessions w !! sid = None ->
  _sessions (run rs w) !! sid = None.
Proof.
  revert w. induction rs as [|r rs IH]; intros w Hrs Hw; [exact Hw|].
  cbn. apply IH; [now apply Forall_inv_tail in Hrs|].
  apply handle_sessions_absent; [|exact Hw].
  constructor; [now apply Forall_inv in Hrs|constructor].
Qed.

(** A session stays as it was written until it is ended. *)
Lemma handle_sessions_kept (sid : string) (sess : Session) (r : Request) (w : World) :
  never_draws sid [r] ->
  (_sessions w !! sid = None \/ _sessions w !! sid = Some sess) ->
  _sessions (handle r w) !! sid = None \/ _sessions (handle r w) !! sid = Some sess.
Proof.
  intros Hr Hw. apply Forall_inv in Hr. destruct r as [data|file u_img u_sess|req|sid']; cbn [handle].
  - rewrite auth_unfold. destruct (py_getitem _ _); [|exact Hw].
    destruct (decide _); exact Hw.
  - rewrite start_session_unfold.
    destruct (_to_np_image _); [exact Hw|].
    destruct (filename file); [|exact Hw]. cbn zeta.
    destruct (SamPredictor_set_image _); [exact Hw|].
    cbn. rewrite lookup_insert_ne; [exact Hw|exact Hr].
  - destruct (segment_frame req w) as [-> _]. exact Hw.
  - rewrite end_session_unfold. destruct (_sessions w !! sid'); [|exact Hw].
    cbn. destruct (decide (sid' = sid)) as [->|Hne].
    + left. apply lookup_delete_eq.
    + rewrite lookup_delete_ne; [exact Hw|exact Hne].
Qed.

Lemma run_sessions_kept (sid : string) (sess : Session) (rs : list Request) (w : World) :
  never_draws sid rs ->
  (_sessions w !! sid = None \/ _sessions w !! sid = Some sess) ->
  _sessions (run rs w) !! sid = None \/ _sessions (run rs w) !! sid = Some sess.
Proof.
  revert w. induction rs as [|r rs IH]; intros w Hrs Hw; [exact Hw|].
  cbn. apply IH; [now apply Forall_inv_tail in Hrs|].
  apply handle_sessions_kept; [|exact Hw].
  constructor; [now apply Forall_inv in Hrs|constructor].
Qed.

(** *** The rotation index stays inside the list *)

Lemma handle_index (r : Request) (w : World) :
  index_in_range w -> index_in_range (handle r w).
Proof.
  unfold index_in_range. intros Hw.
  destruct r as [data|file u_img u_sess|req|sid']; cbn [handle].
  - rewrite auth_unfold. destruct (py_getitem _ _); [|exact Hw].
    destruct (decide _); [|exact Hw]. cbn -[Z.modulo].
    apply Z.mod_pos_bound. reflexivity.
  - rewrite start_session_unfold.
    destruct (_to_np_image _); [exact Hw|].
    destruct (filename file); [|exact Hw]. cbn zeta.
    destruct (SamPredictor_set_image _); exact Hw.
  - destruct (segment_frame req w) as (_ & -> & _). exact Hw.
  - rewrite end_session_unfold. destruct (_sessions w !! sid'); exact Hw.
Qed.

Lemma reachable_index (w : World) : reachable w -> index_in_range w.
Proof.
  intros [rs ->]. induction rs as [|r rs IH] using rev_ind.
  - unfold index_in_range. cbn. lia.
  - unfold run. rewrite foldl_app. cbn. apply handle_index, IH.
Qed.

Lemma py_getitem_in_range {A : Type} (l : list A) (i : Z) :
  0 <= i < Z.of_nat (length l) -> py_getitem l i = l !! Z.to_nat i.
Proof.
  intros Hi. unfold py_getitem.
  destruct (0 <=? i) eqn:E1; [|lia]. destruct (i <? Z.of_nat (length l)) eqn:E2; [|lia].
  reflexivity.
Qed.
End ServiceFacts.

(** ** Further facts about the handlers *)
Section MoreServiceFacts.
Context `{Cv2} `{External}.

Lemma auth_frame_lemma (data : gmap string string) (w : World) :
  _sessions (snd (auth data w)) = _sessions w /\
  upload_dir (snd (auth data w)) = upload_dir w /\
  predict_calls (snd (auth data w)) = predict_calls w.
Proof.
  rewrite auth_unfold. destruct (py_getitem _ _); [|auto].
  destruct (decide _); auto.
Qed.

Lemma segment_calls_lemma (req : SegmentRequest) (w : World) :
  predict_calls (snd (segment req w)) = predict_calls w ++ calls_made req w.
Proof.
  unfold calls_made. rewrite segment_unfold.
  destruct (_sessions w !! session_id req) as [sess|];
    [|cbn [snd]; now rewrite drop_all, app_nil_r].
  destruct (prompt_arrays req) as [e|prompt];
    [cbn [snd]; now rewrite drop_all, app_nil_r|].
  destruct (box_array req) as [box_np|];
    [|cbn [snd]; now rewrite drop_all, app_nil_r].
  cbn zeta. destruct (SamPredictor_predict _ _ _ _ _); cbn [snd log_call predict_calls];
    now rewrite drop_app_length.
Qed.

(** The calls a request makes, by the stage it reaches. *)
Lemma calls_made_unfold (req : SegmentRequest) (w : World) :
  calls_made req w =
  match _sessions w !! session_id req, prompt_arrays req, box_array req with
  | Some sess, inr prompt, Some box_np => [the_call sess req prompt box_np]
  | _, _, _ => []
  end.
Proof.
  unfold calls_made. rewrite segment_unfold.
  destruct (_sessions w !! session_id req) as [sess|]; [|cbn [snd]; apply drop_all].
  destruct (prompt_arrays req) as [e|prompt]; [cbn [snd]; apply drop_all|].
  destruct (box_array req) as [box_np|]; [|cbn [snd]; apply drop_all].
  cbn zeta. destruct (SamPredictor_predict _ _ _ _ _); cbn [snd log_call predict_calls];
    now rewrite drop_app_length.
Qed.

Lemma handle_sessions_same (sid : string) (r : Request) (w : World) :
  never_draws sid [r] -> never_ends sid [r] ->
  _sessions (handle r w) !! sid = _sessions w !! sid.
Proof.
  intros Hd He. apply Forall_inv in Hd. apply Forall_inv in He.
  destruct r as [data|file u_img u_sess|req|sid']; cbn [handle].
  - destruct (auth_frame_lemma data w) as [-> _]. reflexivity.
  - rewrite start_session_unfold.
    destruct (_to_np_image _); [reflexivity|].
    destruct (filename file); [|reflexivity]. cbn zeta.
    destruct (SamPredictor_set_image _); [reflexivity|].
    cbn. now rewrite lookup_insert_ne.
  - destruct (segment_frame req w) as [-> _]. reflexivity.
  - rewrite end_session_unfold. destruct (_sessions w !! sid'); [|reflexivity].
    cbn. now rewrite lookup_delete_ne.
Qed.

Lemma run_sessions_same (sid : string) (rs : list Request) (w : World) :
  never_draws sid rs -> never_ends sid rs ->
  _sessions (run rs w) !! sid = _sessions w !! sid.
Proof.
  revert w. induction rs as [|r rs IH]; intros w Hd He; [reflexivity|].
  change (run (r :: rs) w) with (run rs (handle r w)).
  rewrite IH.
  - apply handle_sessions_same.
    + constructor; [now apply Forall_inv in Hd|constructor].
    + constructor; [now apply Forall_inv in He|constructor].
  - now apply Forall_inv_tail in Hd.
  - now apply Forall_inv_tail in He.
Qed.

Lemma handle_upload_present (name : string) (r : Request) (w : World) :
  is_Some (upload_dir w !! name) -> is_Some (upload_dir (handle r w) !! name).
Proof.
  intros Hn. destruct r as [data|file u_img u_sess|req|sid']; cbn [handle].
  - destruct (auth_frame_lemma data w) as (_ & -> & _). exact Hn.
  - rewrite start_session_unfold.
    destruct (_to_np_image _); [exact Hn|].
    destruct (filename file) as [fname|]; [|exact Hn]. cbn zeta.
    assert (is_Some (<[upload_name fname u_img := file_content file]> (upload_dir w) !! name)).
    { destruct (decide (upload_name fname u_img = name)) as [->|Hne].
      - rewrite lookup_insert_eq. eauto.
      - now rewrite lookup_insert_ne. }
    destruct (SamPredictor_set_image _); assumption.
  - destruct (segment_frame req w) as (_ & _ & ->). exact Hn.
  - rewrite end_session_unfold. destruct (_sessions w !! sid'); exact Hn.
Qed.

Lemma session_backed_mono (r : Request) (w : World) (sess : Session) :
  session_backed w sess -> session_backed (handle r w) sess.
Proof.
  intros (name & Hurl & Hfile & Hsize). exists name.
  split; [exact Hurl|]. split; [|exact Hsize].
  apply handle_upload_present, Hfile.
Qed.

Lemma handle_backed (r : Request) (w : World) :
  sessions_backed w -> sessions_backed (handle r w).
Proof.
  intros Hw sid sess Hs.
  destruct r as [data|file u_img u_sess|req|sid'].
  - apply (session_backed_mono (ReqAuth data)). apply (Hw sid).
    cbn [handle] in Hs. destruct (auth_frame_lemma data w) as [E _].
    now rewrite E in Hs.
  - cbn [handle] in *. revert Hs. rewrite start_session_unfold.
    destruct (_to_np_image _) as [e|img_np]; [apply Hw|].
    destruct (filename file) as [fname|]; [|apply Hw]. cbn zeta.
    assert (Hold : forall s, _sessions w !! sid = Some s ->
              session_backed (write_file (upload_name fname u_img) (file_content file) w) s).
    { intros s Hs. destruct (Hw _ _ Hs) as (name & Hurl & Hfile & Hsize).
      exists name. split; [exact Hurl|]. split; [|exact Hsize].
      cbn. destruct (decide (upload_name fname u_img = name)) as [->|Hne].
      - rewrite lookup_insert_eq. eauto.
      - now rewrite lookup_insert_ne. }
    destruct (SamPredictor_set_image _) as [e|predictor]; [apply Hold|].
    cbn [snd set_sessions _sessions].
    destruct (decide (uuid_str u_sess = sid)) as [->|Hne].
    + rewrite lookup_insert_eq. intros [= <-].
      exists (upload_name fname u_img). split; [reflexivity|]. split; [|reflexivity].
      cbn. rewrite lookup_insert_eq. eauto.
    + rewrite lookup_insert_ne by exact Hne. intros Hs.
      destruct (Hold _ Hs) as (name & Hurl & Hfile & Hsize).
      exists name. auto.
  - apply (session_backed_mono (ReqSegment req)). apply (Hw sid).
    cbn [handle] in Hs. destruct (segment_frame req w) as [E _].
    now rewrite E in Hs.
  - cbn [handle] in *. revert Hs. rewrite end_session_unfold.
    destruct (_sessions w !! sid') as [s|] eqn:E; [|apply Hw].
    cbn [snd set_sessions _sessions]. intros Hs.
    apply lookup_delete_Some in Hs as [_ Hs].
    destruct (Hw _ _ Hs) as (name & Hurl & Hfile & Hsize). exists name. auto.
Qed.

Lemma handle_index_step (r : Request) (w : World) :
  index_in_range w ->
  current_index (handle r w)
  = (current_index w + Z.of_nat (auth_successes [r] w)) mod Z.of_nat (length PASSWORDS).
Proof.
  intros Hw. unfold index_in_range in Hw. cbn [auth_successes].
  assert (Hsame : current_index w = (current_index w + 0) mod Z.of_nat (length PASSWORDS))
    by (rewrite Z.add_0_r, Z.mod_small; [reflexivity|exact Hw]).
  destruct r as [data|file u_img u_sess|req|sid']; cbn [handle].
  - rewrite auth_unfold. destruct (py_getitem _ _); [|exact Hsame].
    destruct (decide _); [reflexivity|exact Hsame].
  - rewrite start_session_unfold.
    destruct (_to_np_image _); [exact Hsame|].
    destruct (filename file); [|exact Hsame]. cbn zeta.
    destruct (SamPredictor_set_image _); exact Hsame.
  - destruct (segment_frame req w) as (_ & -> & _). exact Hsame.
  - rewrite end_session_unfold. destruct (_sessions w !! sid'); exact Hsame.
Qed.

Lemma run_index_counts (rs : list Request) (w : World) :
  index_in_range w ->
  current_index (run rs w)
  = (current_index w + Z.of_nat (auth_successes rs w)) mod Z.of_nat (length PASSWORDS).
Proof.
  revert w. induction rs as [|r rs IH]; intros w Hw.
  - cbn. unfold index_in_range in Hw. rewrite Z.add_0_r, Z.mod_small; [reflexivity|exact Hw].
  - change (run (r :: rs) w) with (run rs (handle r w)).
    rewrite IH by (apply handle_index, Hw).
    rewrite (handle_index_step r w Hw).
    assert (auth_successes (r :: rs) w
            = (auth_successes [r] w + auth_successes rs (handle r w))%nat) as ->
      by (cbn [auth_successes]; lia).
    rewrite Nat2Z.inj_add, Zplus_mod_idemp_l. f_equal. lia.
Qed.

Lemma reachable_backed (w : World) : reachable w -> sessions_backed w.
Proof.
  intros [rs ->]. induction rs as [|r rs IH] using rev_ind.
  - intros sid sess Hs. cbn in Hs. rewrite lookup_empty in Hs. discriminate.
  - unfold run. rewrite foldl_app. cbn. apply handle_backed, IH.
Qed.
End MoreServiceFacts.

(** ** Further facts about the sort *)
Section MoreSortFacts.
Context {A : Type} (key : A -> Q).

Lemma Sorted_head_max (x : A) (l : list A) :
  Sorted (key_ge key) (x :: l) -> forall y, In y l -> (key y <= key x)%Q.
Proof.
  revert x. induction l as [|z l IH]; intros x Hs y Hy; [destruct Hy|].
  apply Sorted_inv in Hs as [Hs Hhd]. apply HdRel_inv in Hhd.
  destruct Hy as [<-|Hy]; [exact Hhd|].
  eapply Qle_trans; [|exact Hhd]. eapply IH; eassumption.
Qed.

Lemma insert_desc_filter (k : Q) (x : A) (l : list A) :
  List.filter (fun a => Qeq_bool (key a) k) (insert_desc key x l)
  = List.filter (fun a => Qeq_bool (key a) k) (x :: l).
Proof.
  induction l as [|y l IH]; [reflexivity|].
  cbn [insert_desc]. destruct (Qle_bool (key y) (key x)) eqn:E; [reflexivity|].
  cbn [List.filter] in *. rewrite IH.
  destruct (Qeq_bool (key x) k) eqn:Ex; [|reflexivity].
  destruct (Qeq_bool (key y) k) eqn:Ey; [|reflexivity].
  apply Qeq_bool_iff in Ex, Ey.
  assert (Qle_bool (key y) (key x) = true); [|congruence].
  apply Qle_bool_iff. rewrite Ex, Ey. apply Qle_refl.
Qed.

Lemma sort_reverse_filter (k : Q) (l : list A) :
  List.filter (fun a => Qeq_bool (key a) k) (sort_reverse key l)
  = List.filter (fun a => Qeq_bool (key a) k) l.
Proof.
  induction l as [|x l IH]; [reflexivity|].
  cbn [sort_reverse foldr]. rewrite insert_desc_filter.
  cbn [List.filter]. fold (sort_reverse key l). now rewrite IH.
Qed.
End MoreSortFacts.

(** * The claims *)

(** C1 (as amended).  Every polygon returned by [_mask_to_polygons] has at
    least 3 vertices and is what the loop made of a contour of the opened
    mask whose own enclosed area, measured before simplification, is at
    least [min_area_px].  When no simplification is asked for
    ([simplify_eps <= 0]) the returned polygon itself has that area. *)
Theorem mask_to_polygons_filter `{Cv2} (mask : Mask) (simplify_eps : Q)
    (min_area_px : Z) (p : Contour) :
  In p (_mask_to_polygons mask simplify_eps min_area_px) ->
  (3 <= length p)%nat /\
  (exists cnt,
     In cnt (findContours (morphologyEx (mask_to_u8 mask) MORPH_OPEN (np_ones_u8 3 3))
               RETR_EXTERNAL CHAIN_APPROX_SIMPLE) /\
     (inject_Z min_area_px <= contourArea cnt)%Q /\
     p = simplified cnt simplify_eps) /\
  (Qlt_bool 0 simplify_eps = false -> (inject_Z min_area_px <= contourArea p)%Q).
Proof.
  unfold _mask_to_polygons. rewrite sort_reverse_In, collect_polys_In.
  intros (cnt & Hin & Harea & Hp & Hlen). split; [exact Hlen|]. split.
  - exists cnt. auto.
  - intros Heps. rewrite Hp. unfold simplified. rewrite Heps. exact Harea.
Qed.

Lemma mask_to_polygons_filter_witness :
  In [(5, 6); (5, 11); (34, 11); (34, 6)]
     (_mask_to_polygons block_with_strip (3 # 2) 150) /\
  (3 <= length [(5, 6); (5, 11); (34, 11); (34, 6)])%nat.
Proof.
  assert (In [(5, 6); (5, 11); (34, 11); (34, 6)]
             (_mask_to_polygons block_with_strip (3 # 2) 150)) as Hin
    by (vm_compute; left; reflexivity).
  split; [exact Hin|].
  exact (proj1 (mask_to_polygons_filter block_with_strip (3 # 2) 150 _ Hin)).
Defined.

(** C1 as the claim words it fails.  Take the block with a strip on top
    and the default parameters.  The opening leaves the mask as it is; its
    one outer border has 8 vertices and encloses 156 pixels, so it passes
    the area test; [approxPolyDP] with tolerance 1.5 drops the four
    vertices of the strip, which lie within one pixel of the upper side;
    what is returned is the rectangle of the block alone, of area
    145 < 150.  The OpenCV operations are those of the [opencv] model. *)
Lemma mask_to_polygons_area_below_minimum :
  let opened := morphologyEx (mask_to_u8 block_with_strip) MORPH_OPEN (np_ones_u8 3 3) in
  let outline := [(15, 5); (14, 6); (5, 6); (5, 11); (34, 11); (34, 6); (26, 6); (25, 5)] in
  let rectangle := [(5, 6); (5, 11); (34, 11); (34, 6)] in
  opened = mask_to_u8 block_with_strip /\
  findContours opened RETR_EXTERNAL CHAIN_APPROX_SIMPLE = [outline] /\
  contourArea outline = 312 # 2 /\
  approxPolyDP outline default_simplify_eps true = rectangle /\
  _mask_to_polygons block_with_strip default_simplify_eps default_min_area_px
    = [rectangle] /\
  contourArea rectangle = 290 # 2 /\
  ~ (forall p, In p (_mask_to_polygons block_with_strip default_simplify_eps
                       default_min_area_px) ->
               (inject_Z default_min_area_px <= contourArea p)%Q /\ (3 <= length p)%nat).
Proof.
  assert (_mask_to_polygons block_with_strip default_simplify_eps default_min_area_px
          = [[(5, 6); (5, 11); (34, 11); (34, 6)]]) as E by (vm_compute; reflexivity).
  cbv zeta. repeat split; try (vm_compute; reflexivity).
  intros Hall. rewrite E in Hall.
  destruct (Hall _ (or_introl eq_refl)) as [Harea _].
  vm_compute in Harea. apply Harea. reflexivity.
Qed.

(** C2.  The list returned by [_mask_to_polygons] is in descending order
    of enclosed area, [polygons[i].area >= polygons[i+1].area] for every
    valid [i]; hence so is the polygon list of every mask of a segment
    response. *)
Theorem polygons_sorted_by_area `{Cv2} `{External} :
  (forall (mask : Mask) (simplify_eps : Q) (min_area_px : Z),
     descending contourArea (_mask_to_polygons mask simplify_eps min_area_px)) /\
  (forall (req : SegmentRequest) (w : World) (resp : SegmentResponse) (m : MaskResult),
     fst (segment req w) = Return resp -> In m (masks resp) ->
     descending contourArea (polygons m)).
Proof.
  split.
  - intros mask eps min_area. apply sort_reverse_descending.
  - intros req w resp m. rewrite segment_unfold.
    destruct (_sessions w !! session_id req) as [sess|]; [|discriminate].
    destruct (prompt_arrays req) as [e|prompt]; [discriminate|].
    destruct (box_array req) as [box_np|]; [|discriminate]. cbn zeta.
    destruct (SamPredictor_predict _ _ _ _ _) as [e|r]; [discriminate|].
    cbn [fst]. intros [= <-]. cbn [masks segment_body].
    rewrite in_map_iff. intros (ms & <- & _). cbn [polygons].
    apply sort_reverse_descending.
Qed.

Lemma polygons_sorted_by_area_witness :
  descending contourArea (_mask_to_polygons block_with_strip (3 # 2) 150) /\
  Forall (fun m => descending contourArea (polygons m))
    (match fst (segment (request "s-1" None None None) one_session) with
     | Return resp => masks resp
     | _ => []
     end).
Proof.
  split.
  - exact (proj1 polygons_sorted_by_area block_with_strip (3 # 2) 150).
  - assert (fst (segment (request "s-1" None None None) one_session)
            = Return two_masks_response) as E by by_computation.
    rewrite E. apply List.Forall_forall. intros m Hm.
    exact (proj2 polygons_sorted_by_area (request "s-1" None None None)
             one_session two_masks_response m E Hm).
Defined.

(** C3 (as amended).  A segment request whose [box] is a non-empty list of
    other than 4 numbers never reaches the model and never answers a body.
    When its session exists and its point prompt converts to arrays the
    call fails with 400 "box must be [x1,y1,x2,y2]" and changes nothing;
    an unknown session is reported first, with 404. *)
Theorem segment_malformed_box `{Cv2} `{External} (req : SegmentRequest) (w : World)
    (b : list float) :
  box req = Some b -> b <> [] -> length b <> 4%nat ->
  predict_calls (snd (segment req w)) = predict_calls w /\
  (forall resp, fst (segment req w) <> Return resp) /\
  (_sessions w !! session_id req = None ->
   segment req w = (HTTPException 404 "Invalid session_id. Please start a session first.", w)) /\
  (forall sess prompt,
     _sessions w !! session_id req = Some sess -> prompt_arrays req = inr prompt ->
     segment req w = (HTTPException 400 "box must be [x1,y1,x2,y2]", w)).
Proof.
  intros Hbox Hne Hlen. rewrite segment_unfold.
  assert (box_array req = None) as ->.
  { unfold box_array. rewrite Hbox. destruct b as [|b0 b]; [congruence|].
    destruct (length (b0 :: b) =? 4)%nat eqn:E; [|reflexivity].
    apply Nat.eqb_eq in E. congruence. }
  destruct (_sessions w !! session_id req) as [sess|];
    [destruct (prompt_arrays req) as [e|prompt]|];
    cbn [fst snd]; repeat split; intros; discriminate || reflexivity.
Qed.

Lemma segment_malformed_box_witness :
  segment (request "s-1" (Some [[1; 2]; [3; 4]]%Q) None (Some [1; 2; 3]%Q)) one_session
  = (HTTPException 400 "box must be [x1,y1,x2,y2]", one_session).
Proof.
  refine (proj2 (proj2 (proj2 (segment_malformed_box
            (request "s-1" (Some [[1; 2]; [3; 4]]%Q) None (Some [1; 2; 3]%Q))
            one_session [1; 2; 3]%Q eq_refl _ _))) one_entry
            (Some [[1; 2]; [3; 4]]%Q, Some [1; 1]) _ _).
  - discriminate.
  - cbn. lia.
  - by_computation.
  - by_computation.
Defined.

(** C3 as the claim words it fails.  With [box = []], which is not 4
    numbers, the call on a live session succeeds and the model is called;
    on an unknown session a 3-number box is answered with 404, not 400;
    and with rows of unequal length in [points] the array conversion
    raises before the box is looked at. *)
Lemma segment_box_not_always_rejected :
  (exists resp,
     fst (segment (request "s-1" None None (Some [])) one_session) = Return resp /\
     length (predict_calls (snd (segment (request "s-1" None None (Some [])) one_session)))
       = S (length (predict_calls one_session))) /\
  fst (segment (request "s-2" None None (Some [1; 2; 3]%Q)) one_session)
    = HTTPException 404 "Invalid session_id. Please start a session first." /\
  fst (segment (request "s-1" (Some [[1; 2]; [3]]%Q) None (Some [1; 2; 3]%Q)) one_session)
    = Unhandled {| exn_class := "ValueError";
                   exn_msg := "setting an array element with a sequence." |}.
Proof.
  split; [|split].
  - exists two_masks_response. split; [by_computation|]. vm_compute. reflexivity.
  - by_computation.
  - by_computation.
Qed.

(** C4.  When [points] is non-empty and [point_labels] is omitted or of
    another length, the request behaves in every respect as the same
    request with an explicit list of ones: same outcome, same state, same
    record of model calls.  Whatever call it makes to the model carries
    the points, as the float32 array made of them, and a vector of ones
    of the same length, and it makes that call as soon as the session
    exists, the points form an array and the box passes its check. *)
Theorem segment_default_labels `{Cv2} `{External} (req : SegmentRequest) (w : World)
    (pts : list (list float)) :
  points req = Some pts -> pts <> [] ->
  (forall labels, point_labels req = Some labels -> length labels <> length pts) ->
  let ones := np_ones_int32 (length pts) in
  let coords := map (map np_float32) pts in
  segment req w = segment (with_point_labels req (Some ones)) w /\
  (exists made, predict_calls (snd (segment req w)) = predict_calls w ++ made /\
     Forall (fun c => call_point_coords c = Some coords /\ call_point_labels c = Some ones /\
                      length ones = length pts) made) /\
  (forall sess box_np,
     _sessions w !! session_id req = Some sess ->
     np_array_2d np_float32 pts = inr coords -> box_array req = Some box_np ->
     predict_calls (snd (segment req w))
     = predict_calls w ++ [the_call sess req (Some coords, Some ones) box_np]).
Proof.
  intros Hpts Hne Hlabels ones coords.
  assert (Hconv : forall pc, np_array_2d np_float32 pts = inr pc -> pc = coords).
  { unfold np_array_2d, coords. destruct pts as [|r rest]; [congruence|].
    destruct (forallb _ rest); congruence. }
  assert (Hones : np_array_int32 ones = inr ones).
  { unfold np_array_int32, ones, np_ones_int32.
    assert (forall n, forallb in_int32 (repeat 1 n) = true) as ->; [|reflexivity].
    induction n as [|n IH]; [reflexivity|]. cbn. exact IH. }
  assert (Hlen : length ones = length pts) by apply repeat_length.
  assert (Hprompt : prompt_arrays req =
            match np_array_2d np_float32 pts with
            | inl e => inl e
            | inr pc => inr (Some pc, Some ones)
            end).
  { unfold prompt_arrays. rewrite Hpts. destruct pts as [|r rest]; [congruence|].
    destruct (np_array_2d np_float32 (r :: rest)) as [e|pc]; [reflexivity|].
    destruct (point_labels req) as [[|l0 ls]|] eqn:El; try reflexivity.
    specialize (Hlabels _ eq_refl).
    destruct (length (l0 :: ls) =? length (r :: rest))%nat eqn:E; [|reflexivity].
    apply Nat.eqb_eq in E. congruence. }
  assert (Hprompt' : prompt_arrays (with_point_labels req (Some ones)) = prompt_arrays req).
  { rewrite Hprompt. unfold prompt_arrays, with_point_labels. cbn [points point_labels].
    rewrite Hpts. destruct pts as [|r rest]; [congruence|].
    destruct (np_array_2d np_float32 (r :: rest)) as [e|pc]; [reflexivity|].
    fold ones. destruct ones as [|o os] eqn:Eo; [discriminate|].
    rewrite Hlen, Nat.eqb_refl, Hones. reflexivity. }
  split; [|split].
  - rewrite !segment_unfold, Hprompt'. reflexivity.
  - rewrite segment_unfold, Hprompt.
    destruct (_sessions w !! session_id req) as [sess|];
      [|exists []; split; [symmetry; apply app_nil_r|constructor]].
    destruct (np_array_2d np_float32 pts) as [e|pc] eqn:Epc;
      [exists []; split; [symmetry; apply app_nil_r|constructor]|].
    assert (pc = coords) as -> by (apply Hconv; reflexivity).
    destruct (box_array req) as [box_np|];
      [|exists []; split; [symmetry; apply app_nil_r|constructor]].
    exists [the_call sess req (Some coords, Some ones) box_np]. cbn zeta. split.
    + destruct (SamPredictor_predict _ _ _ _ _); reflexivity.
    + constructor; [|constructor]. cbn. auto.
  - intros sess box_np Hs Harr Hb.
    rewrite segment_unfold, Hprompt, Hs, Harr, Hb. cbn zeta.
    destruct (SamPredictor_predict _ _ _ _ _); reflexivity.
Qed.

Lemma segment_default_labels_witness :
  segment (request "s-1" (Some [[1; 2]; [3; 4]]%Q) (Some [0]) None) one_session
  = segment (request "s-1" (Some [[1; 2]; [3; 4]]%Q) (Some [1; 1]) None) one_session.
Proof.
  refine (proj1 (segment_default_labels
            (request "s-1" (Some [[1; 2]; [3; 4]]%Q) (Some [0]) None)
            one_session [[1; 2]; [3; 4]]%Q eq_refl _ _)).
  - discriminate.
  - intros labels [= <-]. cbn. lia.
Defined.

(** C5.  Once [session/end] has succeeded for an id, then after any
    further requests (none of which draws that id again from
    [uuid.uuid4()]) a segment call with the id fails with 404, and so does
    a second [session/end]. *)
Theorem ended_session_not_found `{Cv2} `{External} (sid : string) (w : World)
    (rs : list Request) (req : SegmentRequest) :
  fst (end_session sid w) = Return {| status := "ended" |} ->
  never_draws sid rs ->
  session_id req = sid ->
  let w' := run rs (snd (end_session sid w)) in
  segment req w' = (HTTPException 404 "Invalid session_id. Please start a session first.", w') /\
  end_session sid w' = (HTTPException 404 "Invalid session_id", w').
Proof.
  intros Hend Hrs Hreq w'.
  assert (_sessions w' !! sid = None) as Hgone.
  { apply run_sessions_absent; [exact Hrs|].
    revert Hend. rewrite end_session_unfold.
    destruct (_sessions w !! sid); [|discriminate].
    intros _. apply lookup_delete_eq. }
  split.
  - rewrite segment_unfold, Hreq, Hgone. reflexivity.
  - rewrite end_session_unfold, Hgone. reflexivity.
Qed.

Lemma ended_session_not_found_witness :
  let w' := run [ReqAuth ∅; ReqStart upload_40x17 "0a1c" "s-2"]
                (snd (end_session "s-1" one_session)) in
  segment (request "s-1" None None None) w'
    = (HTTPException 404 "Invalid session_id. Please start a session first.", w') /\
  end_session "s-1" w' = (HTTPException 404 "Invalid session_id", w').
Proof.
  refine (ended_session_not_found "s-1" one_session
            [ReqAuth ∅; ReqStart upload_40x17 "0a1c" "s-2"]
            (request "s-1" None None None) _ _ eq_refl).
  - by_computation.
  - repeat constructor. discriminate.
Defined.

(** C6.  When [session/start] succeeds, the picture was decoded, the
    model was given it, and the answered [image_size] is its
    [width, height].  Every later segment call on that session that
    answers a body reports the same [image_size]; and a segment call on
    it does answer a body, with that [image_size], whenever the session
    has not been ended since, the prompt and the box convert, and the
    model returns. *)
Theorem image_size_round_trip `{Cv2} `{External} (file : UploadFile)
    (u_img u_sess : UUID) (w : World) (started : StartResponse) :
  fst (start_session file u_img u_sess w) = Return started ->
  exists img predictor,
    PIL_open_RGB (file_content file) = inr img /\
    start_image_size started = [im_width img; im_height img] /\
    SamPredictor_set_image (np_array_of_image img) = inr predictor /\
    (forall (rs : list Request) (req : SegmentRequest) (resp : SegmentResponse),
       never_draws (start_session_id started) rs ->
       session_id req = start_session_id started ->
       fst (segment req (run rs (snd (start_session file u_img u_sess w)))) = Return resp ->
       image_size resp = start_image_size started) /\
    (forall (rs : list Request) (req : SegmentRequest) prompt box_np
            (r : list Mask * list float),
       never_draws (start_session_id started) rs ->
       never_ends (start_session_id started) rs ->
       session_id req = start_session_id started ->
       prompt_arrays req = inr prompt -> box_array req = Some box_np ->
       SamPredictor_predict predictor (fst prompt) (snd prompt) box_np (multimask req)
         = inr r ->
       exists resp,
         fst (segment req (run rs (snd (start_session file u_img u_sess w)))) = Return resp /\
         image_size resp = start_image_size started).
Proof.
  rewrite start_session_unfold. unfold _to_np_image.
  destruct (PIL_open_RGB (file_content file)) as [e|img]; [discriminate|].
  destruct (filename file) as [name|]; [|discriminate]. cbn zeta.
  destruct (SamPredictor_set_image (np_array_of_image img)) as [e|predictor] eqn:Hset;
    [discriminate|].
  cbn [fst snd]. intros [= <-]. exists img, predictor.
  split; [reflexivity|]. split; [reflexivity|]. split; [exact Hset|].
  cbn [start_session_id start_image_size].
  set (sess := new_session (np_array_of_image img) predictor (upload_name name u_img)).
  set (w1 := set_sessions _ _).
  split.
  - intros rs req resp Hrs Hreq.
    assert (_sessions (run rs w1) !! uuid_str u_sess = None \/
            _sessions (run rs w1) !! uuid_str u_sess = Some sess) as Hkept.
    { apply run_sessions_kept; [exact Hrs|]. right. apply lookup_insert_eq. }
    rewrite segment_unfold, Hreq.
    destruct Hkept as [-> | ->]; [discriminate|].
    destruct (prompt_arrays req) as [e|prompt]; [discriminate|].
    destruct (box_array req) as [box_np|]; [|discriminate]. cbn zeta.
    destruct (SamPredictor_predict _ _ _ _ _) as [e|r]; [discriminate|].
    intros [= <-]. reflexivity.
  - intros rs req prompt box_np r Hd He Hreq Hp Hb Hr.
    assert (_sessions (run rs w1) !! uuid_str u_sess = Some sess) as Hs.
    { rewrite run_sessions_same by assumption. apply lookup_insert_eq. }
    exists (segment_body sess r).
    rewrite segment_unfold, Hreq, Hs, Hp, Hb. cbn zeta.
    change (sess_predictor sess) with predictor. rewrite Hr.
    split; reflexivity.
Qed.

Lemma image_size_round_trip_witness :
  exists resp,
    fst (segment (request "s-1" None None None) one_session) = Return resp /\
    image_size resp = [40; 17].
Proof.
  destruct (@image_size_round_trip opencv stub upload_40x17 "0a1b" "s-1" initial_world
              {| start_session_id := "s-1"; start_image_size := [40; 17];
                 start_image_url := "/uploads/0a1b.jpg" |} eq_refl)
    as (img & predictor & _ & _ & _ & _ & Hbody).
  refine (Hbody [] (request "s-1" None None None) (None, None) None
            ([block_with_strip; empty_mask], [9 # 10; 1 # 10]%Q) _ _ eq_refl eq_refl eq_refl _).
  - constructor.
  - constructor.
  - reflexivity.
Defined.

(** C7.  In every state the service can reach, [auth] compares the
    supplied password with the entry of [PASSWORDS] at the rotation index:
    on a match it answers [{ok: true}] and the index advances by one
    modulo the length of the list; otherwise it fails with 401 and the
    index stays. *)
Theorem auth_rotation `{Cv2} `{External} (data : gmap string string) (w : World) :
  reachable w ->
  exists expected,
    py_getitem PASSWORDS (current_index w) = Some expected /\
    (data !! "password" = Some expected ->
     fst (auth data w) = Return {| ok := true |} /\
     current_index (snd (auth data w))
       = (current_index w + 1) mod Z.of_nat (length PASSWORDS)) /\
    (data !! "password" <> Some expected ->
     auth data w = (HTTPException 401 "Invalid password", w)).
Proof.
  intros Hw. apply reachable_index in Hw.
  assert (exists expected, py_getitem PASSWORDS (current_index w) = Some expected)
    as [expected He].
  { rewrite py_getitem_in_range by exact Hw.
    apply lookup_lt_is_Some_2. unfold index_in_range in Hw. lia. }
  exists expected. split; [exact He|].
  rewrite auth_unfold, He.
  destruct (decide (data !! "password" = Some expected)) as [Heq|Hne].
  - split; [intros _; split; reflexivity|]. intros Hn. contradiction.
  - split; [intros Heq; contradiction|]. reflexivity.
Qed.

Lemma auth_rotation_witness :
  exists expected,
    py_getitem PASSWORDS (current_index one_session) = Some expected /\
    (({["password" := "pass1"]} : gmap string string) !! "password" = Some expected ->
     fst (auth {["password" := "pass1"]} one_session) = Return {| ok := true |} /\
     current_index (snd (auth {["password" := "pass1"]} one_session))
       = (current_index one_session + 1) mod Z.of_nat (length PASSWORDS)) /\
    (({["password" := "pass1"]} : gmap string string) !! "password" <> Some expected ->
     auth {["password" := "pass1"]} one_session
       = (HTTPException 401 "Invalid password", one_session)).
Proof.
  apply (auth_rotation {["password" := "pass1"]} one_session).
  exists [@ReqStart stub upload_40x17 "0a1b" "s-1"]. reflexivity.
Defined.

(** C8.  On a mask of [height] rows and [width] columns, both positive,
    without a single true pixel [_mask_to_polygons] returns the empty
    list, whatever its parameters; and a segment call whose model answers
    such a mask returns a body in which that mask has zero polygons. *)
Theorem empty_mask_no_polygons `{Cv2} `{External} (height width : nat) (mask : Mask) :
  (0 < height)%nat -> (0 < width)%nat -> has_shape height width mask ->
  all_false mask ->
  (forall (simplify_eps : Q) (min_area_px : Z),
     _mask_to_polygons mask simplify_eps min_area_px = []) /\
  (forall (req : SegmentRequest) (w : World) (sess : Session) prompt box_np
          (r : list Mask * list float) (i : nat) (s : float),
     _sessions w !! session_id req = Some sess ->
     prompt_arrays req = inr prompt -> box_array req = Some box_np ->
     SamPredictor_predict (sess_predictor sess) (fst prompt) (snd prompt) box_np
       (multimask req) = inr r ->
     fst r !! i = Some mask -> snd r !! i = Some s ->
     exists resp,
       fst (segment req w) = Return resp /\
       masks resp !! i = Some {| score := s; polygons := [] |}).
Proof.
  intros Hh Hw Hshape Hmask.
  assert (forall eps min_area, _mask_to_polygons mask eps min_area = []) as Hblank.
  { intros eps min_area.
    exact (_mask_to_polygons_blank height width mask eps min_area Hh Hw Hshape Hmask). }
  split; [exact Hblank|].
  intros req w sess prompt box_np r i s Hs Hp Hb Hr Hi Hsc.
  exists (segment_body sess r). rewrite segment_unfold, Hs, Hp, Hb. cbn zeta.
  rewrite Hr. split; [reflexivity|].
  cbn [masks segment_body]. rewrite list_lookup_fmap.
  assert (combine (fst r) (snd r) !! i = Some (mask, s)) as ->.
  { clear -Hi Hsc. revert i Hi Hsc.
    generalize (snd r). induction (fst r) as [|m ms IH]; intros ss i Hi Hsc;
      [discriminate|].
    destruct ss as [|s0 ss]; [discriminate|].
    destruct i as [|i]; cbn in *; [congruence|]. apply IH; assumption. }
  cbn. rewrite Hblank. reflexivity.
Qed.

Lemma empty_mask_no_polygons_witness :
  has_shape 17 40 empty_mask /\
  _mask_to_polygons empty_mask (3 # 2) 150 = [] /\
  exists resp,
    fst (segment (request "s-1" None None None) one_session) = Return resp /\
    masks resp !! 1%nat = Some {| score := (1 # 10)%Q; polygons := [] |}.
Proof.
  assert (all_false empty_mask) as Hm by (repeat constructor).
  assert (has_shape 17 40 empty_mask) as Hs by (split; [reflexivity|repeat constructor]).
  assert (0 < 17)%nat as H17 by lia.
  assert (0 < 40)%nat as H40 by lia.
  split; [exact Hs|]. split.
  - exact (proj1 (empty_mask_no_polygons 17 40 empty_mask H17 H40 Hs Hm) (3 # 2) 150).
  - refine (proj2 (empty_mask_no_polygons 17 40 empty_mask H17 H40 Hs Hm)
              (request "s-1" None None None) one_session one_entry (None, None) None
              ([block_with_strip; empty_mask], [9 # 10; 1 # 10]%Q) 1%nat (1 # 10)%Q
              _ eq_refl eq_refl _ eq_refl eq_refl).
    + by_computation.
    + reflexivity.
Defined.

(** C9.  A segment call, whatever it answers, leaves [_sessions] as it
    found it: the same ids with the same predictor, image size and image
    url; the rotation index and the upload directory are untouched as
    well. *)
Theorem segment_leaves_sessions `{Cv2} `{External} (req : SegmentRequest) (w : World) :
  _sessions (snd (segment req w)) = _sessions w /\
  (forall sid, _sessions (snd (segment req w)) !! sid = _sessions w !! sid) /\
  current_index (snd (segment req w)) = current_index w /\
  upload_dir (snd (segment req w)) = upload_dir w.
Proof.
  destruct (segment_frame req w) as (Hs & Hi & Hu).
  rewrite Hs. auto.
Qed.

(** C10.  A segment request with [box = []] is treated exactly as the same
    request without a box: it never fails with 400, and any call it makes
    to the model is made with [box=None]; it makes that call whenever the
    session exists and the point prompt converts to arrays. *)
Theorem segment_empty_box `{Cv2} `{External} (req : SegmentRequest) (w : World) :
  box req = Some [] ->
  segment req w = segment (with_box req None) w /\
  (forall detail, fst (segment req w) <> HTTPException 400 detail) /\
  (exists made, predict_calls (snd (segment req w)) = predict_calls w ++ made /\
     Forall (fun c => call_box c = None) made) /\
  (forall sess prompt,
     _sessions w !! session_id req = Some sess -> prompt_arrays req = inr prompt ->
     predict_calls (snd (segment req w)) = predict_calls w ++ [the_call sess req prompt None]).
Proof.
  intros Hbox.
  assert (box_array req = Some None) as Hb by (unfold box_array; now rewrite Hbox).
  split; [|split; [|split]].
  - rewrite !segment_unfold. cbn [session_id with_box multimask].
    replace (prompt_arrays (with_box req None)) with (prompt_arrays req) by reflexivity.
    rewrite Hb. reflexivity.
  - intros detail. rewrite segment_unfold, Hb.
    destruct (_sessions w !! session_id req) as [sess|]; [|discriminate].
    destruct (prompt_arrays req) as [e|prompt]; [discriminate|]. cbn zeta.
    destruct (SamPredictor_predict _ _ _ _ _); discriminate.
  - rewrite segment_unfold, Hb.
    destruct (_sessions w !! session_id req) as [sess|];
      [|exists []; split; [symmetry; apply app_nil_r|constructor]].
    destruct (prompt_arrays req) as [e|prompt];
      [exists []; split; [symmetry; apply app_nil_r|constructor]|].
    exists [the_call sess req prompt None]. cbn zeta. split.
    + destruct (SamPredictor_predict _ _ _ _ _); reflexivity.
    + repeat constructor.
  - intros sess prompt Hs Hp. rewrite segment_unfold, Hs, Hp, Hb. cbn zeta.
    destruct (SamPredictor_predict _ _ _ _ _); reflexivity.
Qed.

Lemma segment_empty_box_witness :
  segment (request "s-1" None None (Some [])) one_session
  = segment (request "s-1" None None None) one_session.
Proof.
  exact (proj1 (segment_empty_box (request "s-1" None None (Some [])) one_session eq_refl)).
Defined.

(** * Further properties of the handlers *)

(** X1.  An upload that PIL cannot decode is answered with 400
    "Invalid image: <reason>" and leaves no trace: no file is written and
    no session is created. *)
Theorem start_session_invalid_image `{Cv2} `{External} (file : UploadFile)
    (u_img u_sess : UUID) (w : World) (e : PyExn) :
  PIL_open_RGB (file_content file) = inl e ->
  start_session file u_img u_sess w
  = (HTTPException 400 ("Invalid image: " +:+ str e), w).
Proof.
  intros He. rewrite start_session_unfold. unfold _to_np_image. rewrite He. reflexivity.
Qed.

Lemma start_session_invalid_image_witness :
  start_session upload_garbage "0a1d" "s-9" one_session
  = (HTTPException 400 "Invalid image: cannot identify image file", one_session).
Proof.
  exact (@start_session_invalid_image opencv stub upload_garbage "0a1d" "s-9" one_session
           Stub.cannot_identify eq_refl).
Defined.

(** X2.  A successful [session/start] answers the drawn session id; the
    session stored under that id carries the answered size and url; the
    url is "/uploads/" followed by the hex of the other uuid and the
    extension of the uploaded file name (".jpg" when it has none), and the
    file of that name holds exactly the uploaded bytes.  Sessions under
    other ids, the rotation index and the history of model calls are
    untouched. *)
Theorem start_session_stores `{Cv2} `{External} (file : UploadFile)
    (u_img u_sess : UUID) (w : World) (started : StartResponse) :
  fst (start_session file u_img u_sess w) = Return started ->
  let w' := snd (start_session file u_img u_sess w) in
  start_session_id started = uuid_str u_sess /\
  (exists sess, _sessions w' !! start_session_id started = Some sess /\
     sess_image_size sess = start_image_size started /\
     sess_image_url sess = start_image_url started) /\
  (exists name ext,
     filename file = Some name /\
     (ext = snd (os_path_splitext name) /\ ext <> "" \/
      snd (os_path_splitext name) = "" /\ ext = ".jpg") /\
     start_image_url started = "/uploads/" +:+ (uuid_hex u_img +:+ ext) /\
     upload_dir w' !! (uuid_hex u_img +:+ ext) = Some (file_content file)) /\
  (forall sid, sid <> start_session_id started -> _sessions w' !! sid = _sessions w !! sid) /\
  current_index w' = current_index w /\
  predict_calls w' = predict_calls w.
Proof.
  rewrite start_session_unfold.
  destruct (_to_np_image (file_content file)) as [e|img_np]; [discriminate|].
  destruct (filename file) as [name|]; [|discriminate]. cbn zeta.
  destruct (SamPredictor_set_image img_np) as [e|predictor]; [discriminate|].
  cbn [fst snd]. intros [= <-]. cbn [start_session_id start_image_size start_image_url].
  split; [reflexivity|]. split; [|split; [|split; [|split]]].
  - eexists. cbn. rewrite lookup_insert_eq. split; [reflexivity|]. split; reflexivity.
  - exists name.
    exists (if decide (snd (os_path_splitext name) = "") then ".jpg"
            else snd (os_path_splitext name)).
    split; [reflexivity|]. split.
    + destruct (decide (snd (os_path_splitext name) = "")); [right|left]; auto.
    + split; [reflexivity|]. cbn. apply lookup_insert_eq.
  - intros sid Hne. cbn. now rewrite lookup_insert_ne.
  - reflexivity.
  - reflexivity.
Qed.

Lemma start_session_stores_witness :
  exists sess, _sessions one_session !! "s-1" = Some sess /\
    sess_image_size sess = [40; 17] /\ sess_image_url sess = "/uploads/0a1b.jpg".
Proof.
  exact (proj1 (proj2 (@start_session_stores opencv stub upload_40x17 "0a1b" "s-1"
           initial_world
           {| start_session_id := "s-1"; start_image_size := [40; 17];
              start_image_url := "/uploads/0a1b.jpg" |} eq_refl))).
Defined.

(** X3.  A session is usable as soon as [session/start] has answered: a
    segment call with the answered id is never turned away with 404. *)
Theorem started_session_is_found `{Cv2} `{External} (file : UploadFile)
    (u_img u_sess : UUID) (w : World) (started : StartResponse) (req : SegmentRequest) :
  fst (start_session file u_img u_sess w) = Return started ->
  session_id req = start_session_id started ->
  forall detail,
    fst (segment req (snd (start_session file u_img u_sess w))) <> HTTPException 404 detail.
Proof.
  rewrite start_session_unfold.
  destruct (_to_np_image (file_content file)) as [e|img_np]; [discriminate|].
  destruct (filename file) as [name|]; [|discriminate]. cbn zeta.
  destruct (SamPredictor_set_image img_np) as [e|predictor]; [discriminate|].
  cbn [fst snd]. intros [= <-] Hreq detail. cbn [start_session_id] in Hreq.
  rewrite segment_unfold, Hreq. cbn [_sessions set_sessions].
  rewrite lookup_insert_eq.
  destruct (prompt_arrays req); [discriminate|].
  destruct (box_array req); [|discriminate]. cbn zeta.
  destruct (SamPredictor_predict _ _ _ _ _); discriminate.
Qed.

Lemma started_session_is_found_witness :
  fst (segment (request "s-1" None None None) one_session)
  <> HTTPException 404 "Invalid session_id. Please start a session first.".
Proof.
  exact (@started_session_is_found opencv stub upload_40x17 "0a1b" "s-1" initial_world
           {| start_session_id := "s-1"; start_image_size := [40; 17];
              start_image_url := "/uploads/0a1b.jpg" |}
           (request "s-1" None None None) eq_refl eq_refl
           "Invalid session_id. Please start a session first.").
Defined.



(** X5.  [session/end] succeeds exactly when the id is in [_sessions].
    It then removes that entry and nothing else: the other sessions, the
    uploaded files (also the one of the ended session), the rotation index
    and the history of model calls stay as they were.  For an unknown id
    it answers 404 and changes nothing. *)
Theorem end_session_effect `{Cv2} `{External} (sid : string) (w : World) :
  let w' := snd (end_session sid w) in
  (fst (end_session sid w) = Return {| status := "ended" |} <->
   is_Some (_sessions w !! sid)) /\
  (_sessions w !! sid = None ->
   end_session sid w = (HTTPException 404 "Invalid session_id", w)) /\
  _sessions w' !! sid = None /\
  (forall sid', sid' <> sid -> _sessions w' !! sid' = _sessions w !! sid') /\
  upload_dir w' = upload_dir w /\
  current_index w' = current_index w /\
  predict_calls w' = predict_calls w.
Proof.
  rewrite end_session_unfold.
  destruct (_sessions w !! sid) as [sess|] eqn:E; cbn.
  - split; [split; eauto|]. split; [discriminate|].
    split; [apply lookup_delete_eq|].
    split; [intros sid' Hne; now rewrite lookup_delete_ne|]. auto.
  - split; [split; [discriminate|intros [s Hs]; discriminate]|].
    split; [reflexivity|]. split; [exact E|]. auto.
Qed.

(** X6.  A session stays in [_sessions], unchanged, across any history of
    requests that neither ends it nor draws its id again: nothing evicts
    or rewrites it. *)
Theorem session_persists `{Cv2} `{External} (sid : string) (sess : Session)
    (rs : list Request) (w : World) :
  _sessions w !! sid = Some sess ->
  never_draws sid rs -> never_ends sid rs ->
  _sessions (run rs w) !! sid = Some sess.
Proof.
  revert w. induction rs as [|r rs IH]; intros w Hs Hd He; [exact Hs|].
  change (run (r :: rs) w) with (run rs (handle r w)).
  apply IH.
  - rewrite handle_sessions_same; [exact Hs| |].
    + constructor; [now apply Forall_inv in Hd|constructor].
    + constructor; [now apply Forall_inv in He|constructor].
  - now apply Forall_inv_tail in Hd.
  - now apply Forall_inv_tail in He.
Qed.

Lemma session_persists_witness :
  exists sess,
    _sessions one_session !! "s-1" = Some sess /\
    _sessions (run [ReqAuth ∅; ReqSegment (request "s-1" None None None);
                    ReqEnd "s-7"; ReqStart upload_40x17 "0a1c" "s-2"] one_session) !! "s-1"
    = Some sess.
Proof.
  exists one_entry. split; [by_computation|].
  apply (@session_persists opencv stub "s-1").
  - by_computation.
  - repeat constructor. discriminate.
  - repeat constructor. discriminate.
Defined.

(** X7.  No request deletes an uploaded file: a name present in the
    upload directory is still present after any history of requests. *)
Theorem uploads_are_kept `{Cv2} `{External} (name : string) (rs : list Request)
    (w : World) :
  is_Some (upload_dir w !! name) -> is_Some (upload_dir (run rs w) !! name).
Proof.
  revert w. induction rs as [|r rs IH]; intros w Hn; [exact Hn|].
  change (run (r :: rs) w) with (run rs (handle r w)).
  apply IH, handle_upload_present, Hn.
Qed.

Lemma uploads_are_kept_witness :
  is_Some (upload_dir (run [ReqEnd "s-1"] one_session) !! "0a1b.jpg").
Proof.
  apply (@uploads_are_kept opencv stub "0a1b.jpg" [ReqEnd "s-1"] one_session).
  exists [Byte.x28; Byte.x11]. by_computation.
Defined.

(** X8.  In every state the service can reach, each stored session has an
    [image_url] of the form "/uploads/<name>" whose file is in the upload
    directory, and an [image_size] of two entries. *)
Theorem reachable_sessions_backed `{Cv2} `{External} (w : World) (sid : string)
    (sess : Session) :
  reachable w -> _sessions w !! sid = Some sess ->
  exists name,
    sess_image_url sess = "/uploads/" +:+ name /\
    is_Some (upload_dir w !! name) /\
    length (sess_image_size sess) = 2%nat.
Proof.
  intros Hw Hs. exact (reachable_backed w Hw sid sess Hs).
Qed.

Lemma reachable_sessions_backed_witness :
  exists name,
    "/uploads/0a1b.jpg" = "/uploads/" +:+ name /\
    is_Some (upload_dir one_session !! name) /\
    length [40; 17] = 2%nat.
Proof.
  refine (@reachable_sessions_backed opencv stub one_session "s-1"
            {| sess_predictor := np_array_of_image
                                   {| im_width := 40; im_height := 17; im_pixels := [] |};
               sess_image_size := [40; 17];
               sess_image_url := "/uploads/0a1b.jpg" |} _ _).
  - exists [@ReqStart stub upload_40x17 "0a1b" "s-1"]. reflexivity.
  - by_computation.
Defined.

(** X9.  After any history of requests from the initial state, the
    rotation index is the number of [auth] calls that were answered
    [{ok: true}], modulo the length of [PASSWORDS]; no other request and
    no rejected [auth] moves it. *)
Theorem index_counts_logins `{Cv2} `{External} (rs : list Request) :
  current_index (run rs initial_world)
  = Z.of_nat (auth_successes rs initial_world) mod Z.of_nat (length PASSWORDS).
Proof.
  rewrite run_index_counts; [reflexivity|].
  unfold index_in_range. cbn. lia.
Qed.

(** X10.  A password is good for one login: in every reachable state,
    right after an [auth] call that succeeded, the same body is rejected
    with 401. *)
Theorem auth_replay_rejected `{Cv2} `{External} (data : gmap string string)
    (w : World) (r : AuthResponse) :
  reachable w ->
  fst (auth data w) = Return r ->
  auth data (snd (auth data w))
  = (HTTPException 401 "Invalid password", snd (auth data w)).
Proof.
  intros Hw. apply reachable_index in Hw. unfold index_in_range in Hw.
  rewrite (auth_unfold data w).
  destruct (py_getitem PASSWORDS (current_index w)) as [expected|] eqn:He; [|discriminate].
  destruct (decide (data !! "password" = Some expected)) as [Hd|]; [|discriminate].
  intros _. cbn [snd]. rewrite auth_unfold. cbn [current_index set_current_index].
  assert (exists expected', py_getitem PASSWORDS
            ((current_index w + 1) mod Z.of_nat (length PASSWORDS)) = Some expected' /\
            expected' <> expected) as (expected' & -> & Hne).
  { cbn in Hw. assert (current_index w = 0 \/ current_index w = 1 \/
                       current_index w = 2 \/ current_index w = 3) as Hi by lia.
    destruct Hi as [Hi|[Hi|[Hi|Hi]]]; rewrite Hi in *; cbn in He |- *;
      injection He as <-; eexists; (split; [reflexivity|discriminate]). }
  destruct (decide (data !! "password" = Some expected')) as [Hd'|]; [|reflexivity].
  congruence.
Qed.

Lemma auth_replay_rejected_witness :
  auth {["password" := "pass1"]} (snd (auth {["password" := "pass1"]} one_session))
  = (HTTPException 401 "Invalid password",
     snd (auth {["password" := "pass1"]} one_session)).
Proof.
  refine (@auth_replay_rejected opencv stub {["password" := "pass1"]} one_session
            {| ok := true |} _ _).
  - exists [@ReqStart stub upload_40x17 "0a1b" "s-1"]. reflexivity.
  - by_computation.
Defined.

(** X11.  A body without the key "password" is an ordinary failed login:
    in every reachable state it is answered with 401, not with an
    internal error, and nothing changes. *)
Theorem auth_missing_password `{Cv2} `{External} (data : gmap string string) (w : World) :
  reachable w -> data !! "password" = None ->
  auth data w = (HTTPException 401 "Invalid password", w).
Proof.
  intros Hw Hd. apply reachable_index in Hw.
  rewrite auth_unfold, py_getitem_in_range by exact Hw.
  destruct (PASSWORDS !! Z.to_nat (current_index w)) as [expected|] eqn:He.
  - destruct (decide (data !! "password" = Some expected)); [congruence|reflexivity].
  - apply lookup_ge_None in He. unfold index_in_range in Hw. lia.
Qed.

Lemma auth_missing_password_witness :
  auth {["user" := "ann"]} one_session = (HTTPException 401 "Invalid password", one_session).
Proof.
  refine (@auth_missing_password opencv stub {["user" := "ann"]} one_session _ _).
  - exists [@ReqStart stub upload_40x17 "0a1b" "s-1"]. reflexivity.
  - by_computation.
Defined.

(** X12.  [auth], whatever it answers, touches nothing but the rotation
    index: sessions, uploaded files and the history of model calls are as
    before. *)
Theorem auth_frame `{Cv2} `{External} (data : gmap string string) (w : World) :
  _sessions (snd (auth data w)) = _sessions w /\
  upload_dir (snd (auth data w)) = upload_dir w /\
  predict_calls (snd (auth data w)) = predict_calls w.
Proof. apply auth_frame_lemma. Qed.

(** X13.  A segment call on an id that is not in [_sessions] is answered
    with 404 before anything else is looked at, whatever the prompt; the
    state is unchanged and the model is not called. *)
Theorem segment_unknown_session `{Cv2} `{External} (req : SegmentRequest) (w : World) :
  _sessions w !! session_id req = None ->
  segment req w
  = (HTTPException 404 "Invalid session_id. Please start a session first.", w).
Proof. intros Hs. rewrite segment_unfold, Hs. reflexivity. Qed.

Lemma segment_unknown_session_witness :
  segment (request "s-5" (Some [[1; 2]; [3]]%Q) (Some [7]) (Some [1]%Q)) one_session
  = (HTTPException 404 "Invalid session_id. Please start a session first.", one_session).
Proof.
  refine (@segment_unknown_session opencv stub
            (request "s-5" (Some [[1; 2]; [3]]%Q) (Some [7]) (Some [1]%Q)) one_session _).
  by_computation.
Defined.

(** X14.  When the model raises, the call is answered with 500
    "SAM prediction failed: <reason>"; the state is as before except that
    the one call to the model has been made. *)
Theorem segment_model_failure `{Cv2} `{External} (req : SegmentRequest) (w : World)
    (sess : Session) (prompt : option (list (list float)) * option (list Z))
    (box_np : option (list (list float))) (e : PyExn) :
  _sessions w !! session_id req = Some sess ->
  prompt_arrays req = inr prompt ->
  box_array req = Some box_np ->
  SamPredictor_predict (sess_predictor sess) (fst prompt) (snd prompt) box_np
    (multimask req) = inl e ->
  fst (segment req w) = HTTPException 500 ("SAM prediction failed: " +:+ str e) /\
  _sessions (snd (segment req w)) = _sessions w /\
  calls_made req w = [the_call sess req prompt box_np].
Proof.
  intros Hs Hp Hb He. rewrite calls_made_unfold, segment_unfold, Hs, Hp, Hb.
  cbn zeta. rewrite He. auto.
Qed.

Lemma segment_model_failure_witness :
  fst (@segment opencv failing_stub (failing_request "s-1") failing_session)
  = HTTPException 500 "SAM prediction failed: out of memory".
Proof.
  refine (proj1 (@segment_model_failure opencv failing_stub
            (failing_request "s-1") failing_session failing_entry
            (None, None) None
            {| exn_class := "RuntimeError"; exn_msg := "out of memory" |} _ eq_refl eq_refl
            eq_refl)).
  by_computation.
Defined.

(** X15.  A successful segment call answers one entry per pair of mask
    and score, in the order the model returned them: [num_masks] is the
    number of entries, which is the shorter of the two lengths; the i-th
    entry carries the i-th score and the polygons of the i-th mask under
    the default parameters; [image_size] is the one stored with the
    session. *)
Theorem segment_response_shape `{Cv2} `{External} (req : SegmentRequest) (w : World)
    (resp : SegmentResponse) :
  fst (segment req w) = Return resp ->
  exists sess prompt box_np ms ss,
    _sessions w !! session_id req = Some sess /\
    SamPredictor_predict (sess_predictor sess) (fst prompt) (snd prompt) box_np
      (multimask req) = inr (ms, ss) /\
    image_size resp = sess_image_size sess /\
    num_masks resp = length (masks resp) /\
    num_masks resp = Nat.min (length ms) (length ss) /\
    map score (masks resp) = take (num_masks resp) ss /\
    map polygons (masks resp)
    = map (fun m => _mask_to_polygons m default_simplify_eps default_min_area_px)
          (take (num_masks resp) ms).
Proof.
  rewrite segment_unfold.
  destruct (_sessions w !! session_id req) as [sess|]; [|discriminate].
  destruct (prompt_arrays req) as [e|prompt]; [discriminate|].
  destruct (box_array req) as [box_np|]; [|discriminate]. cbn zeta.
  destruct (SamPredictor_predict _ _ _ _ _) as [e|[ms ss]] eqn:Er; [discriminate|].
  cbn [fst]. intros [= <-]. exists sess, prompt, box_np, ms, ss.
  split; [reflexivity|]. split; [exact Er|]. split; [reflexivity|].
  cbn [segment_body num_masks masks fst snd].
  split; [reflexivity|].
  rewrite length_map, length_combine. split; [reflexivity|].
  rewrite !map_map. cbn [score polygons].
  clear Er. split.
  - revert ss. induction ms as [|m ms IH]; intros [|s ss]; cbn; try reflexivity.
    f_equal. apply IH.
  - revert ss. induction ms as [|m ms IH]; intros [|s ss]; cbn; try reflexivity.
    f_equal. apply IH.
Qed.

Lemma segment_response_shape_witness :
  num_masks two_masks_response = length (masks two_masks_response) /\
  map score (masks two_masks_response) = [9 # 10; 1 # 10]%Q.
Proof.
  destruct (@segment_response_shape opencv stub (request "s-1" None None None)
              one_session two_masks_response)
    as (sess & prompt & box_np & ms & ss & _ & _ & _ & Hn & _).
  - by_computation.
  - split; [exact Hn|reflexivity].
Defined.

(** X16.  A segment call appends to the history of model calls and
    calls the model at most once; it calls it exactly when it answers a
    body or a 500, never on 404, 400 or a conversion error; and the call
    goes to the predictor stored with the session, with the [multimask]
    flag of the request. *)
Theorem segment_calls_model_once `{Cv2} `{External} (req : SegmentRequest) (w : World) :
  predict_calls (snd (segment req w)) = predict_calls w ++ calls_made req w /\
  (length (calls_made req w) <= 1)%nat /\
  (length (calls_made req w) = 1%nat <->
   (exists resp, fst (segment req w) = Return resp) \/
   (exists detail, fst (segment req w) = HTTPException 500 detail)) /\
  (forall c, In c (calls_made req w) ->
     exists sess, _sessions w !! session_id req = Some sess /\
       call_predictor c = sess_predictor sess /\
       call_multimask_output c = multimask req).
Proof.
  split; [apply segment_calls_lemma|].
  rewrite calls_made_unfold, segment_unfold.
  destruct (_sessions w !! session_id req) as [sess|].
  2: { cbn. split; [lia|]. split; [|intros c []].
       split; [discriminate|]. intros [[r Hr]|[d Hd]]; discriminate. }
  destruct (prompt_arrays req) as [e|prompt].
  { cbn. split; [lia|]. split; [|intros c []].
    split; [discriminate|]. intros [[r Hr]|[d Hd]]; discriminate. }
  destruct (box_array req) as [box_np|].
  2: { cbn. split; [lia|]. split; [|intros c []].
       split; [discriminate|]. intros [[r Hr]|[d Hd]]; discriminate. }
  cbn zeta. split; [cbn; lia|]. split.
  - split; [intros _|reflexivity].
    destruct (SamPredictor_predict _ _ _ _ _); cbn [fst]; eauto.
  - intros c [<-|[]]. exists sess. auto.
Qed.

(** X17.  Labels without points are ignored: when [points] is omitted or
    empty, the call behaves as the same request without [point_labels],
    and whatever call it makes to the model has neither coordinates nor
    labels. *)
Theorem segment_labels_without_points `{Cv2} `{External} (req : SegmentRequest)
    (w : World) :
  points req = None \/ points req = Some [] ->
  segment req w = segment (without_labels req) w /\
  (forall c, In c (calls_made req w) ->
     call_point_coords c = None /\ call_point_labels c = None).
Proof.
  intros Hp.
  assert (prompt_arrays req = inr (None, None)) as Hpa
    by (unfold prompt_arrays; destruct Hp as [-> | ->]; reflexivity).
  assert (prompt_arrays (without_labels req) = inr (None, None)) as Hpa'
    by (unfold prompt_arrays, without_labels, with_point_labels; cbn [points];
        destruct Hp as [-> | ->]; reflexivity).
  split.
  - rewrite !segment_unfold, Hpa, Hpa'. reflexivity.
  - intros c. rewrite calls_made_unfold, Hpa.
    destruct (_sessions w !! session_id req); [|intros []].
    destruct (box_array req); [|intros []].
    intros [<-|[]]. auto.
Qed.

Lemma segment_labels_without_points_witness :
  segment (request "s-1" (Some []) (Some [0; 1]) None) one_session
  = segment (request "s-1" (Some []) None None) one_session.
Proof.
  exact (proj1 (@segment_labels_without_points opencv stub
                  (request "s-1" (Some []) (Some [0; 1]) None) one_session
                  (or_intror eq_refl))).
Defined.

(** X18.  A well-formed prompt reaches the model as arrays: with a live
    session, points in rows of equal length, as many labels as points,
    all within int32, and a box that passes its check, the one call made
    carries every coordinate cast to float32, in the order sent, and the
    labels as sent. *)
Theorem segment_passes_prompt `{Cv2} `{External} (req : SegmentRequest) (w : World)
    (sess : Session) (pts : list (list float)) (labels : list Z)
    (box_np : option (list (list float))) :
  _sessions w !! session_id req = Some sess ->
  points req = Some pts -> pts <> [] ->
  np_array_2d np_float32 pts = inr (map (map np_float32) pts) ->
  point_labels req = Some labels -> length labels = length pts ->
  forallb in_int32 labels = true ->
  box_array req = Some box_np ->
  calls_made req w
  = [the_call sess req (Some (map (map np_float32) pts), Some labels) box_np].
Proof.
  intros Hs Hp Hne Harr Hl Hlen Hint Hb.
  assert (prompt_arrays req = inr (Some (map (map np_float32) pts), Some labels)) as Hpa.
  { unfold prompt_arrays. rewrite Hp. destruct pts as [|r rest]; [congruence|].
    rewrite Harr, Hl. destruct labels as [|l0 ls]; [discriminate|].
    rewrite Hlen, Nat.eqb_refl. unfold np_array_int32. rewrite Hint. reflexivity. }
  rewrite calls_made_unfold, Hs, Hpa, Hb. reflexivity.
Qed.

Lemma segment_passes_prompt_witness :
  let req := request "s-1" (Some [[16777217; 2]; [1 # 10; 4]]%Q) (Some [1; 0]) None in
  map call_point_coords (calls_made req one_session)
  = [Some [[16777216; 2]; [13421773 # 134217728; 4]]%Q] /\
  map call_point_labels (calls_made req one_session) = [Some [1; 0]].
Proof.
  intros req.
  assert (calls_made req one_session
          = [the_call one_entry req
               (Some (map (map (@np_float32 stub)) [[16777217; 2]; [1 # 10; 4]]%Q),
                Some [1; 0]) None]) as E.
  { apply (@segment_passes_prompt opencv stub req one_session one_entry
             [[16777217; 2]; [1 # 10; 4]]%Q [1; 0] None);
      first [by_computation | discriminate]. }
  rewrite E. split; by_computation.
Defined.

(** X19.  A box of exactly 4 numbers is never answered with 400, and
    whatever call is made to the model carries it as a single row
    [[x1, y1, x2, y2]] of the four numbers cast to float32. *)
Theorem segment_passes_box `{Cv2} `{External} (req : SegmentRequest) (w : World)
    (b : list float) :
  box req = Some b -> length b = 4%nat ->
  (forall detail, fst (segment req w) <> HTTPException 400 detail) /\
  (forall c, In c (calls_made req w) -> call_box c = Some [map np_float32 b]).
Proof.
  intros Hbox Hlen.
  assert (box_array req = Some (Some [map np_float32 b])) as Hb.
  { unfold box_array. rewrite Hbox. destruct b as [|b0 b]; [discriminate|].
    rewrite Hlen. reflexivity. }
  split.
  - intros detail. rewrite segment_unfold, Hb.
    destruct (_sessions w !! session_id req); [|discriminate].
    destruct (prompt_arrays req); [discriminate|]. cbn zeta.
    destruct (SamPredictor_predict _ _ _ _ _); discriminate.
  - intros c. rewrite calls_made_unfold, Hb.
    destruct (_sessions w !! session_id req); [|intros []].
    destruct (prompt_arrays req); [intros []|].
    intros [<-|[]]. reflexivity.
Qed.

Lemma segment_passes_box_witness :
  let req := request "s-1" None None (Some [1 # 10; 2; 30; 16777217]%Q) in
  length (calls_made req one_session) = 1%nat /\
  Forall (fun c => call_box c = Some [[13421773 # 134217728; 2; 30; 16777216]%Q])
    (calls_made req one_session).
Proof.
  intros req. split; [vm_compute; reflexivity|].
  assert (map (@np_float32 stub) [1 # 10; 2; 30; 16777217]%Q
          = [13421773 # 134217728; 2; 30; 16777216]%Q) as E by by_computation.
  rewrite <- E. apply List.Forall_forall.
  exact (proj2 (@segment_passes_box opencv stub req one_session
                  [1 # 10; 2; 30; 16777217]%Q eq_refl eq_refl)).
Defined.

(** X20.  Sessions are isolated from one another and from earlier
    calls: after any history of requests that neither ends the session of
    a segment request nor draws its id again (other segment calls, logins,
    other sessions started and ended), the request is answered as it
    would have been before that history.  Nothing is cached between
    calls. *)
Theorem segment_unaffected_by_others `{Cv2} `{External} (rs : list Request)
    (req : SegmentRequest) (w : World) :
  never_draws (session_id req) rs -> never_ends (session_id req) rs ->
  fst (segment req (run rs w)) = fst (segment req w).
Proof.
  intros Hd He.
  rewrite (segment_unfold req (run rs w)), (segment_unfold req w).
  rewrite (run_sessions_same _ rs w Hd He).
  destruct (_sessions w !! session_id req); [|reflexivity].
  destruct (prompt_arrays req); [reflexivity|].
  destruct (box_array req); [|reflexivity]. cbn zeta.
  destruct (SamPredictor_predict _ _ _ _ _); reflexivity.
Qed.

Lemma segment_unaffected_by_others_witness :
  fst (segment (request "s-1" None None None)
         (run [ReqSegment (request "s-1" None None None); ReqAuth ∅;
               ReqStart upload_40x17 "0a1c" "s-2"; ReqEnd "s-2"] one_session))
  = fst (segment (request "s-1" None None None) one_session).
Proof.
  apply (@segment_unaffected_by_others opencv stub).
  - repeat constructor. discriminate.
  - repeat constructor. discriminate.
Defined.

(** X21.  The largest region comes first: no polygon of the list returned
    by [_mask_to_polygons] has a larger enclosed area than the first. *)
Theorem largest_polygon_first `{Cv2} (mask : Mask) (simplify_eps : Q) (min_area_px : Z)
    (first : Contour) (others : list Contour) :
  _mask_to_polygons mask simplify_eps min_area_px = first :: others ->
  forall p, In p others -> (contourArea p <= contourArea first)%Q.
Proof.
  intros E. apply Sorted_head_max. rewrite <- E.
  apply sort_reverse_Sorted.
Qed.

Lemma largest_polygon_first_witness :
  contours_of two_blocks = [small_block; large_block] /\
  _mask_to_polygons two_blocks (3 # 2) 3 = [large_block; small_block] /\
  (contourArea small_block <= contourArea large_block)%Q.
Proof.
  assert (_mask_to_polygons two_blocks (3 # 2) 3 = [large_block; small_block]) as E
    by by_computation.
  split; [by_computation|]. split; [exact E|].
  exact (@largest_polygon_first opencv two_blocks (3 # 2) 3 large_block [small_block] E
           small_block (or_introl eq_refl)).
Defined.

(** X22.  Polygons of equal area keep the order in which their contours
    were found: for every area value, the polygons of that area appear in
    the result in the order the loop produced them (the sort is stable,
    also in reverse). *)
Theorem equal_areas_keep_order `{Cv2} (mask : Mask) (simplify_eps : Q) (min_area_px : Z)
    (area : Q) :
  List.filter (fun p => Qeq_bool (contourArea p) area)
    (_mask_to_polygons mask simplify_eps min_area_px)
  = List.filter (fun p => Qeq_bool (contourArea p) area)
      (collect_polys (contours_of mask) simplify_eps min_area_px).
Proof. apply sort_reverse_filter. Qed.

(** X23.  Nothing that passes the two tests is lost: every contour found
    in the opened mask whose area is at least [min_area_px] and whose
    simplification has at least 3 vertices is returned, simplified; and
    the result has no more polygons than contours were found. *)
Theorem passing_contours_are_returned `{Cv2} (mask : Mask) (simplify_eps : Q)
    (min_area_px : Z) :
  (forall cnt, In cnt (contours_of mask) ->
     (inject_Z min_area_px <= contourArea cnt)%Q ->
     (3 <= length (simplified cnt simplify_eps))%nat ->
     In (simplified cnt simplify_eps) (_mask_to_polygons mask simplify_eps min_area_px)) /\
  (length (_mask_to_polygons mask simplify_eps min_area_px) <= length (contours_of mask))%nat.
Proof.
  unfold _mask_to_polygons. fold (contours_of mask). split.
  - intros cnt Hin Harea Hlen. rewrite sort_reverse_In, collect_polys_In.
    exists cnt. auto.
  - rewrite (Permutation_length (sort_reverse_perm contourArea _)).
    induction (contours_of mask) as [|c rest IH]; [reflexivity|].
    cbn [collect_polys length].
    destruct (Qlt_bool _ _); [lia|].
    destruct (3 <=? _)%nat; cbn [length]; lia.
Qed.

(** X24.  [health] always answers: the body has "status" = "ok" and
    "device" = "cuda" or "cpu" according to [torch.cuda.is_available()];
    it has a "cuda_device_name" exactly when the device is "cuda" and the
    name query succeeds, a failing query being swallowed; and the state is
    untouched. *)
Theorem health_answers `{External} `{Torch} (w : World) :
  exists info,
    health w = (Return info, w) /\
    info !! "status" = Some "ok" /\
    info !! "device" = Some (if cuda_is_available then "cuda" else "cpu") /\
    (forall name, info !! "cuda_device_name" = Some name <->
       cuda_is_available = true /\ cuda_get_device_name 0 = inr name).
Proof.
  unfold health, DEVICE, M_ret.
  destruct cuda_is_available.
  - destruct (decide ("cuda" = "cuda")) as [_|n]; [|congruence].
    destruct (cuda_get_device_name 0) as [e|dev]; eexists; (split; [reflexivity|]).
    + split; [reflexivity|]. split; [reflexivity|].
      intros name. split; [discriminate|]. intros [_ [=]].
    + split; [reflexivity|]. split; [reflexivity|].
      intros name. rewrite lookup_insert_eq. split.
      * intros [= ->]. auto.
      * intros [_ [= ->]]. reflexivity.
  - destruct (decide ("cpu" = "cuda")) as [n|_]; [discriminate|].
    eexists. split; [reflexivity|]. split; [reflexivity|]. split; [reflexivity|].
    intros name. split; [discriminate|]. intros [[=] _].
Qed.

(** X25.  Rows of unequal length in [points] make the array conversion
    raise before the model is called; the exception is outside the
    handler's [try] and escapes it.  The state is unchanged. *)
Theorem segment_ragged_points `{Cv2} `{External} (req : SegmentRequest) (w : World)
    (sess : Session) (row other : list float) (rows : list (list float)) :
  _sessions w !! session_id req = Some sess ->
  points req = Some (row :: rows) ->
  In other rows -> length other <> length row ->
  segment req w
  = (Unhandled {| exn_class := "ValueError";
                  exn_msg := "setting an array element with a sequence." |}, w) /\
  calls_made req w = [].
Proof.
  intros Hs Hp Hin Hlen.
  assert (prompt_arrays req
          = inl {| exn_class := "ValueError";
                   exn_msg := "setting an array element with a sequence." |}) as Hpa.
  { unfold prompt_arrays, np_array_2d. rewrite Hp.
    destruct (forallb _ rows) eqn:E; [|reflexivity].
    rewrite forallb_forall in E. specialize (E _ Hin).
    apply Nat.eqb_eq in E. contradiction. }
  rewrite calls_made_unfold, segment_unfold, Hs, Hpa. auto.
Qed.

Lemma segment_ragged_points_witness :
  calls_made (request "s-1" (Some [[1; 2]; [3]]%Q) None None) one_session = [].
Proof.
  refine (proj2 (@segment_ragged_points opencv stub
            (request "s-1" (Some [[1; 2]; [3]]%Q) None None) one_session one_entry
            [1; 2]%Q [3]%Q [[3]%Q] _ eq_refl _ _)).
  - by_computation.
  - left. reflexivity.
  - cbn. lia.
Defined.

(** X26.  Raising [min_area_px] only removes polygons: every polygon
    returned under a larger minimum is also returned under a smaller one,
    the other parameter being the same. *)
Theorem larger_minimum_returns_fewer `{Cv2} (mask : Mask) (simplify_eps : Q)
    (lower higher : Z) (p : Contour) :
  lower <= higher ->
  In p (_mask_to_polygons mask simplify_eps higher) ->
  In p (_mask_to_polygons mask simplify_eps lower).
Proof.
  intros Hle. unfold _mask_to_polygons. rewrite !sort_reverse_In, !collect_polys_In.
  intros (cnt & Hin & Harea & Hrest). exists cnt. split; [exact Hin|]. split; [|exact Hrest].
  eapply Qle_trans; [|exact Harea]. rewrite <- Zle_Qle. exact Hle.
Qed.

Lemma larger_minimum_returns_fewer_witness :
  In [(5, 6); (5, 11); (34, 11); (34, 6)] (_mask_to_polygons block_with_strip (3 # 2) 100).
Proof.
  apply (@larger_minimum_returns_fewer opencv block_with_strip (3 # 2) 100 150).
  - lia.
  - vm_compute. left. reflexivity.
Defined.
